(** * Context Engine: session versioning and project-context resolution

    A shallow embedding of the session manager (saveSession,
    resumeSession, listSessions and their private helpers), of the
    project manager (detectTechStack, calculateContextHash,
    createOrUpdateProjectContext, createSnapshot, getProjectContext), of
    the pooled connection's [transaction] and of the constraints that the
    DDL of database/schema.ts puts on the tables these functions touch.

    Conventions.
    - A JavaScript string is a [string]: a sequence of 8-bit code units.
      Text outside ASCII is carried through unchanged; case conversion is
      the ASCII one.
    - A JavaScript number read from JSON is carried by its canonical
      decimal rendering (what [String(n)] gives).
    - A value that may be [undefined] is an [option].
    - Row identifiers are natural numbers drawn from a counter: the store
      never hands out the same identifier twice. *)

From Stdlib Require Import ZArith List String Ascii Bool Lia Arith.
From Stdlib Require Import Permutation Sorted OrderedTypeEx DecimalString FinFun.
Import ListNotations.

Local Open Scope list_scope.
Local Open Scope string_scope.

#[local] Set Warnings "-register-all,-abstract-large-number".

(** ** JavaScript string primitives *)

Module JsString.

(** [s.includes(sub)] *)
Fixpoint includes (s sub : string) : bool :=
  if String.prefix sub s then true
  else match s with
       | EmptyString => false
       | String _ s' => includes s' sub
       end.

Definition is_upper (c : ascii) : bool :=
  let n := nat_of_ascii c in (65 <=? n)%nat && (n <=? 90)%nat.

Definition lower_ascii (c : ascii) : ascii :=
  if is_upper c then ascii_of_nat (nat_of_ascii c + 32) else c.

(** [s.toLowerCase()] *)
Fixpoint toLowerCase (s : string) : string :=
  match s with
  | EmptyString => EmptyString
  | String c s' => String (lower_ascii c) (toLowerCase s')
  end.

Definition is_lower (c : ascii) : bool :=
  let n := nat_of_ascii c in (97 <=? n)%nat && (n <=? 122)%nat.

Definition upper_ascii (c : ascii) : ascii :=
  if is_lower c then ascii_of_nat (nat_of_ascii c - 32) else c.

(** [s.toUpperCase()] *)
Fixpoint toUpperCase (s : string) : string :=
  match s with
  | EmptyString => EmptyString
  | String c s' => String (upper_ascii c) (toUpperCase s')
  end.

(** [s.split(sep)] for a one-character separator: the current segment is
    accumulated in reverse in [cur]. *)
Fixpoint split_aux (sep : ascii) (s : string) (cur : string) : list string :=
  match s with
  | EmptyString => [cur]
  | String c s' =>
      if Ascii.eqb c sep then cur :: split_aux sep s' EmptyString
      else split_aux sep s' (cur ++ String c EmptyString)
  end.

Definition split (sep : ascii) (s : string) : list string :=
  split_aux sep s EmptyString.

(** [arr.pop()] on the result of a split, which is never empty. *)
Definition pop (l : list string) : string := List.last l EmptyString.

(** [arr.join(sep)] *)
Definition join (sep : string) (l : list string) : string := String.concat sep l.

(** ECMAScript white space and line terminators that fit in one code unit
    below 128: tab, line feed, vertical tab, form feed, carriage return,
    space. *)
Definition is_js_space (c : ascii) : bool :=
  let n := nat_of_ascii c in
  (n =? 9)%nat || (n =? 10)%nat || (n =? 11)%nat || (n =? 12)%nat
  || (n =? 13)%nat || (n =? 32)%nat.

Fixpoint trimStart (s : string) : string :=
  match s with
  | EmptyString => EmptyString
  | String c s' => if is_js_space c then trimStart s' else s
  end.

(** A string made of white space only is exactly one that [trim]s to the
    empty string; this is all the engine asks of [trim]. *)
Definition trim_is_empty (s : string) : bool :=
  match trimStart s with EmptyString => true | _ => false end.

(** [s.substring(0, n)] *)
Definition substring0 (n : nat) (s : string) : string := String.substring 0 n s.

(** [arr.slice(-n)] *)
Definition slice_last {A} (n : nat) (l : list A) : list A :=
  skipn (List.length l - n) l.

Definition charCode (c : ascii) : Z := Z.of_nat (nat_of_ascii c).

Fixpoint charCodes (s : string) : list Z :=
  match s with
  | EmptyString => []
  | String c s' => charCode c :: charCodes s'
  end.

Definition hex_digit (d : Z) : ascii :=
  if (d <? 10)%Z then ascii_of_nat (48 + Z.to_nat d)
  else ascii_of_nat (87 + Z.to_nat d).

Fixpoint to_hex_aux (fuel : nat) (n : Z) (acc : string) : string :=
  match fuel with
  | O => acc
  | S f =>
      let acc' := String (hex_digit (n mod 16)) acc in
      if (n / 16 =? 0)%Z then acc' else to_hex_aux f (n / 16) acc'
  end.

(** [n.toString(16)] for a non-negative integer. *)
Definition toString16 (n : Z) : string :=
  to_hex_aux (S (Z.to_nat (Z.log2 n))) n EmptyString.

Fixpoint repeat_char (c : ascii) (n : nat) : string :=
  match n with
  | O => EmptyString
  | S k => String c (repeat_char c k)
  end.

(** [s.padStart(n, c)] with a one-character filler. *)
Definition padStart (s : string) (n : nat) (c : ascii) : string :=
  repeat_char c (n - String.length s) ++ s.

Definition is_hex_char (c : ascii) : bool :=
  let n := nat_of_ascii c in
  ((48 <=? n)%nat && (n <=? 57)%nat) || ((97 <=? n)%nat && (n <=? 102)%nat).

Fixpoint all_chars (p : ascii -> bool) (s : string) : bool :=
  match s with
  | EmptyString => true
  | String c s' => p c && all_chars p s'
  end.

End JsString.

(** ** 32-bit integer arithmetic of the bit operators *)

Module Int32.

(** ToInt32: reduce modulo 2^32 into the signed range. *)
Definition to_int32 (z : Z) : Z :=
  let m := (z mod 2 ^ 32)%Z in
  if (m <? 2 ^ 31)%Z then m else (m - 2 ^ 32)%Z.

(** [a << k] *)
Definition shl (a : Z) (k : Z) : Z := to_int32 (Z.shiftl (to_int32 a) k).

(** [a & b] *)
Definition and (a b : Z) : Z := to_int32 (Z.land (to_int32 a) (to_int32 b)).

End Int32.

(** ** SessionManager.calculateContentHash *)

Module ContentHash.
Import JsString.

(** One turn of the loop body:
    [hash = ((hash << 5) - hash) + char; hash = hash & hash]. *)
Definition step (hash : Z) (char : Z) : Z :=
  let hash1 := (Int32.shl hash 5 - hash + char)%Z in
  Int32.and hash1 hash1.

Definition loop (codes : list Z) : Z := fold_left step codes 0%Z.

Definition calculateContentHash (content : string) : string :=
  let hash := loop (charCodes content) in
  padStart (toString16 (Z.abs hash)) 64 "0"%char.

End ContentHash.

(** ** JSON values and the JavaScript operations the engine applies to them *)

Module Json.
Import JsString.

(** A parsed JSON value.  [JObj] lists the own properties in enumeration
    order; a key occurs at most once in a value built by the engine or by
    a parser, and [lookup] takes the first occurrence. *)
Inductive json : Type :=
| JNull
| JBool (b : bool)
| JNum (repr : string)
| JStr (s : string)
| JArr (items : list json)
| JObj (props : list (string * json)).

Fixpoint lookup {A} (k : string) (l : list (string * A)) : option A :=
  match l with
  | [] => None
  | (k', v) :: r => if String.eqb k k' then Some v else lookup k r
  end.

Definition has_key {A} (k : string) (l : list (string * A)) : bool :=
  match lookup k l with Some _ => true | None => false end.

(** [obj[k] = v]: an existing property keeps its place, a new one goes
    last. *)
Fixpoint set {A} (k : string) (v : A) (l : list (string * A)) : list (string * A) :=
  match l with
  | [] => [(k, v)]
  | (k', v') :: r =>
      if String.eqb k k' then (k, v) :: r else (k', v') :: set k v r
  end.

(** ToBoolean. *)
Definition truthy (v : json) : bool :=
  match v with
  | JNull => false
  | JBool b => b
  | JNum r => negb (String.eqb r "0" || String.eqb r "NaN")
  | JStr s => negb (String.eqb s "")
  | JArr _ | JObj _ => true
  end.

(** ToBoolean of a value that may be [undefined]. *)
Definition truthy_opt (v : option json) : bool :=
  match v with Some x => truthy x | None => false end.

(** [v.k] for a property name [k] that is neither an array index nor a
    member of a built-in prototype (all names the engine reads are of this
    kind).  The outer [None] is the TypeError raised on [null]. *)
Definition member (v : json) (k : string) : option (option json) :=
  match v with
  | JNull => None
  | JObj props => Some (lookup k props)
  | _ => Some None
  end.

(** [v?.k] where [v] itself may be [undefined]. *)
Definition opt_member (v : option json) (k : string) : option json :=
  match v with
  | Some (JObj props) => lookup k props
  | _ => None
  end.

Definition string_of_nat (n : nat) : string :=
  NilZero.string_of_uint (Nat.to_uint n).

Definition indices (n : nat) : list string := map string_of_nat (seq 0 n).

(** [Object.keys(v)] for a value that is not [null]. *)
Definition keys (v : json) : list string :=
  match v with
  | JObj props => map fst props
  | JArr items => indices (List.length items)
  | JStr s => indices (String.length s)
  | _ => []
  end.

(** The own enumerable properties copied by [{...v}]. *)
Definition spread (v : json) : list (string * json) :=
  match v with
  | JObj props => props
  | JArr items => combine (indices (List.length items)) items
  | JStr s =>
      combine (indices (String.length s))
              (map (fun c => JStr (String c EmptyString)) (list_ascii_of_string s))
  | _ => []
  end.

Definition nl : string := String (ascii_of_nat 10) EmptyString.

Definition quote_char (c : ascii) : string :=
  let n := nat_of_ascii c in
  if (n =? 34)%nat then String (ascii_of_nat 92) (String (ascii_of_nat 34) EmptyString)
  else if (n =? 92)%nat then String (ascii_of_nat 92) (String (ascii_of_nat 92) EmptyString)
  else if (n =? 8)%nat then String (ascii_of_nat 92) "b"
  else if (n =? 12)%nat then String (ascii_of_nat 92) "f"
  else if (n =? 10)%nat then String (ascii_of_nat 92) "n"
  else if (n =? 13)%nat then String (ascii_of_nat 92) "r"
  else if (n =? 9)%nat then String (ascii_of_nat 92) "t"
  else if (n <? 32)%nat then
    String (ascii_of_nat 92) ("u00" ++ padStart (toString16 (Z.of_nat n)) 2 "0"%char)
  else String c EmptyString.

Fixpoint quote_body (s : string) : string :=
  match s with
  | EmptyString => EmptyString
  | String c s' => quote_char c ++ quote_body s'
  end.

(** QuoteJSONString. *)
Definition quote (s : string) : string :=
  String (ascii_of_nat 34) (quote_body s ++ String (ascii_of_nat 34) EmptyString).

Definition not_finite (r : string) : bool :=
  String.eqb r "NaN" || String.eqb r "Infinity" || String.eqb r "-Infinity".

Definition is_empty_string (s : string) : bool :=
  match s with EmptyString => true | _ => false end.

(** The text of the selected properties, in the order of [ks]; a key that
    the object lacks contributes nothing. *)
Fixpoint select (ks : list string) (sprops : list (string * string)) (colon : string)
  : list string :=
  match ks with
  | [] => []
  | k :: r =>
      match lookup k sprops with
      | Some txt => (quote k ++ colon ++ txt) :: select r sprops colon
      | None => select r sprops colon
      end
  end.

Definition wrap (opening closing : string) (gap indent : string) (partial : list string)
  : string :=
  match partial with
  | [] => opening ++ closing
  | _ =>
      if is_empty_string gap then opening ++ join "," partial ++ closing
      else
        let inner := indent ++ gap in
        opening ++ nl ++ inner ++ join ("," ++ nl ++ inner) partial
                ++ nl ++ indent ++ closing
  end.

(** SerializeJSONProperty for parsed JSON values.  [plist] is the
    property list of an array replacer (when one is given, it selects and
    orders the keys of every object, nested ones included); [gap] is the
    indentation unit and [indent] the current indentation. *)
Fixpoint serialize (plist : option (list string)) (gap indent : string) (v : json)
  {struct v} : string :=
  match v with
  | JNull => "null"
  | JBool true => "true"
  | JBool false => "false"
  | JNum r => if not_finite r then "null" else r
  | JStr s => quote s
  | JArr items =>
      let partial :=
        (fix go (l : list json) : list string :=
           match l with
           | [] => []
           | x :: r => serialize plist gap (indent ++ gap) x :: go r
           end) items in
      wrap "[" "]" gap indent partial
  | JObj props =>
      let sprops :=
        (fix go (l : list (string * json)) : list (string * string) :=
           match l with
           | [] => []
           | (k, x) :: r => (k, serialize plist gap (indent ++ gap) x) :: go r
           end) props in
      let ks := match plist with Some ks => ks | None => map fst sprops end in
      let colon := if is_empty_string gap then ":" else ": " in
      wrap "{" "}" gap indent (select ks sprops colon)
  end.

(** [JSON.stringify(v)] *)
Definition stringify (v : json) : string := serialize None "" "" v.

(** [JSON.stringify(v, null, 2)] *)
Definition stringify_pretty2 (v : json) : string := serialize None "  " "" v.

Fixpoint dedup (l : list string) : list string :=
  match l with
  | [] => []
  | k :: r => k :: filter (fun k' => negb (String.eqb k k')) (dedup r)
  end.

(** [JSON.stringify(v, keys)] with an array of strings as replacer: the
    property list is the array without repetitions. *)
Definition stringify_with_keys (v : json) (ks : list string) : string :=
  serialize (Some (dedup ks)) "" "" v.

End Json.

(** ** SHA-256, as [crypto.createHash('sha256').update(s).digest('hex')] *)

Module Sha256.
Import JsString.
Local Open Scope Z_scope.

Definition w32 (x : Z) : Z := x mod 2 ^ 32.
Definition add32 (a b : Z) : Z := w32 (a + b).
Definition rotr (n x : Z) : Z := Z.lor (Z.shiftr x n) (w32 (Z.shiftl x (32 - n))).
Definition not32 (x : Z) : Z := 2 ^ 32 - 1 - x.

Definition Ch (x y z : Z) : Z := Z.lxor (Z.land x y) (Z.land (not32 x) z).
Definition Maj (x y z : Z) : Z :=
  Z.lxor (Z.lxor (Z.land x y) (Z.land x z)) (Z.land y z).
Definition Sigma0 (x : Z) : Z := Z.lxor (Z.lxor (rotr 2 x) (rotr 13 x)) (rotr 22 x).
Definition Sigma1 (x : Z) : Z := Z.lxor (Z.lxor (rotr 6 x) (rotr 11 x)) (rotr 25 x).
Definition sigma0 (x : Z) : Z := Z.lxor (Z.lxor (rotr 7 x) (rotr 18 x)) (Z.shiftr x 3).
Definition sigma1 (x : Z) : Z := Z.lxor (Z.lxor (rotr 17 x) (rotr 19 x)) (Z.shiftr x 10).

Definition K : list Z :=
  [1116352408; 1899447441; 3049323471; 3921009573; 961987163; 1508970993;
   2453635748; 2870763221; 3624381080; 310598401; 607225278; 1426881987;
   1925078388; 2162078206; 2614888103; 3248222580; 3835390401; 4022224774;
   264347078; 604807628; 770255983; 1249150122; 1555081692; 1996064986;
   2554220882; 2821834349; 2952996808; 3210313671; 3336571891; 3584528711;
   113926993; 338241895; 666307205; 773529912; 1294757372; 1396182291;
   1695183700; 1986661051; 2177026350; 2456956037; 2730485921; 2820302411;
   3259730800; 3345764771; 3516065817; 3600352804; 4094571909; 275423344;
   430227734; 506948616; 659060556; 883997877; 958139571; 1322822218;
   1537002063; 1747873779; 1955562222; 2024104815; 2227730452; 2361852424;
   2428436474; 2756734187; 3204031479; 3329325298].

Definition H0 : list Z :=
  [1779033703; 3144134277; 1013904242; 2773480762;
   1359893119; 2600822924; 528734635; 1541459225].

(** The message followed by the bit 1, zeros, and the bit length on eight
    bytes, so that the whole is a multiple of 64 bytes. *)
Definition pad (msg : list Z) : list Z :=
  let l := Z.of_nat (List.length msg) in
  let zeros := Z.to_nat ((55 - l) mod 64) in
  let bits := 8 * l in
  (msg ++ [128] ++ repeat 0 zeros
       ++ map (fun i => Z.shiftr bits (8 * (7 - Z.of_nat i)) mod 256) (seq 0 8))%list.

Fixpoint words (fuel : nat) (bytes : list Z) : list Z :=
  match fuel, bytes with
  | S f, a :: b :: c :: d :: r =>
      (a * 16777216 + b * 65536 + c * 256 + d) :: words f r
  | _, _ => []
  end.

Fixpoint blocks (fuel : nat) (ws : list Z) : list (list Z) :=
  match fuel with
  | O => []
  | S f =>
      match ws with
      | [] => []
      | _ => firstn 16 ws :: blocks f (skipn 16 ws)
      end
  end.

(** The message schedule, most recent word first. *)
Fixpoint extend (n : nat) (rw : list Z) : list Z :=
  match n with
  | O => rw
  | S k =>
      let w := add32 (add32 (sigma1 (nth 1 rw 0)) (nth 6 rw 0))
                     (add32 (sigma0 (nth 14 rw 0)) (nth 15 rw 0)) in
      extend k (w :: rw)
  end.

Definition schedule (block : list Z) : list Z := rev (extend 48 (rev block)).

Definition round (st : list Z) (kw : Z * Z) : list Z :=
  match st with
  | [a; b; c; d; e; f; g; h] =>
      let t1 := add32 (add32 (add32 h (Sigma1 e)) (add32 (Ch e f g) (fst kw))) (snd kw) in
      let t2 := add32 (Sigma0 a) (Maj a b c) in
      [add32 t1 t2; a; b; c; add32 d t1; e; f; g]
  | _ => st
  end.

Definition compress (h : list Z) (block : list Z) : list Z :=
  let st := fold_left round (combine K (schedule block)) h in
  map (fun p => add32 (fst p) (snd p)) (combine h st).

Definition digest_words (msg : list Z) : list Z :=
  let bytes := pad msg in
  let ws := words (List.length bytes) bytes in
  fold_left compress (blocks (List.length ws) ws) H0.

Definition hex8 (w : Z) : string := padStart (toString16 w) 8 "0"%char.

Definition sha256_hex (s : string) : string :=
  String.concat "" (map hex8 (digest_words (charCodes s))).

End Sha256.

(** ** A JSON reader

    [JSON.parse] belongs to the JavaScript runtime; the engine's functions
    below take it as a parameter.  [JsonReader.parse] is a reader for the
    part of the JSON grammar made of objects, arrays, strings, integer
    literals of at most fifteen digits, [true], [false] and [null]; it
    answers [None] on a syntax error and also on what it does not cover
    (fractions, exponents, escapes above code 255, keys that are array
    indices).  It instantiates the parameter on concrete inputs. *)

Module JsonReader.
Import Json.

Definition is_ws (c : ascii) : bool :=
  let n := nat_of_ascii c in
  (n =? 32)%nat || (n =? 9)%nat || (n =? 10)%nat || (n =? 13)%nat.

Fixpoint skip_ws (s : list ascii) : list ascii :=
  match s with
  | c :: r => if is_ws c then skip_ws r else s
  | [] => []
  end.

Definition is_digit (c : ascii) : bool :=
  let n := nat_of_ascii c in (48 <=? n)%nat && (n <=? 57)%nat.

Fixpoint take_digits (s : list ascii) : list ascii * list ascii :=
  match s with
  | c :: r =>
      if is_digit c then let (d, r') := take_digits r in (c :: d, r') else ([], s)
  | [] => ([], [])
  end.

Definition starts_number_tail (s : list ascii) : bool :=
  match s with
  | c :: _ =>
      let n := nat_of_ascii c in (n =? 46)%nat || (n =? 101)%nat || (n =? 69)%nat
  | [] => false
  end.

(** An integer literal and its canonical rendering. *)
Definition read_int (negative : bool) (s : list ascii) : option (json * list ascii) :=
  let (d, r) := take_digits s in
  match d with
  | [] => None
  | c :: d' =>
      if starts_number_tail r then None
      else if (15 <? List.length d)%nat then None
      else if (nat_of_ascii c =? 48)%nat then
        match d' with
        | [] => Some (JNum "0", r)
        | _ => None
        end
      else
        let txt := string_of_list_ascii d in
        Some (JNum (if negative then String "-" txt else txt), r)
  end.

Definition hex_val (c : ascii) : option nat :=
  let n := nat_of_ascii c in
  if (48 <=? n)%nat && (n <=? 57)%nat then Some (n - 48)
  else if (97 <=? n)%nat && (n <=? 102)%nat then Some (n - 87)
  else if (65 <=? n)%nat && (n <=? 70)%nat then Some (n - 55)
  else None.

(** The characters of a string literal after its opening quote. *)
Fixpoint read_chars (s : list ascii) : option (string * list ascii) :=
  match s with
  | [] => None
  | c :: r =>
      let n := nat_of_ascii c in
      if (n =? 34)%nat then Some (EmptyString, r)
      else if (n <? 32)%nat then None
      else if (n =? 92)%nat then
        match r with
        | e :: r1 =>
            let m := nat_of_ascii e in
            let lit (k : nat) (rest : list ascii) :=
              match read_chars rest with
              | Some (t, r') => Some (String (ascii_of_nat k) t, r')
              | None => None
              end in
            if (m =? 34)%nat then lit 34 r1
            else if (m =? 92)%nat then lit 92 r1
            else if (m =? 47)%nat then lit 47 r1
            else if (m =? 98)%nat then lit 8 r1
            else if (m =? 102)%nat then lit 12 r1
            else if (m =? 110)%nat then lit 10 r1
            else if (m =? 114)%nat then lit 13 r1
            else if (m =? 116)%nat then lit 9 r1
            else if (m =? 117)%nat then
              match r1 with
              | h1 :: h2 :: h3 :: h4 :: r2 =>
                  match hex_val h1, hex_val h2, hex_val h3, hex_val h4 with
                  | Some 0, Some 0, Some a, Some b => lit (16 * a + b) r2
                  | _, _, _, _ => None
                  end
              | _ => None
              end
            else None
        | [] => None
        end
      else
        match read_chars r with
        | Some (t, r') => Some (String c t, r')
        | None => None
        end
  end.

Definition is_index_key (k : string) : bool :=
  match list_ascii_of_string k with
  | [] => false
  | [c] => is_digit c
  | c :: r => is_digit c && negb (nat_of_ascii c =? 48)%nat && forallb is_digit r
  end.

Definition starts_with (c : nat) (s : list ascii) : option (list ascii) :=
  match s with
  | d :: r => if (nat_of_ascii d =? c)%nat then Some r else None
  | [] => None
  end.

Fixpoint read_value (fuel : nat) (s : list ascii) {struct fuel}
  : option (json * list ascii) :=
  match fuel with
  | O => None
  | S f =>
      match skip_ws s with
      | [] => None
      | c :: r =>
          let n := nat_of_ascii c in
          if (n =? 34)%nat then
            match read_chars r with
            | Some (t, r') => Some (JStr t, r')
            | None => None
            end
          else if (n =? 91)%nat then
            match starts_with 93 (skip_ws r) with
            | Some r' => Some (JArr [], r')
            | None => read_items f r []
            end
          else if (n =? 123)%nat then
            match starts_with 125 (skip_ws r) with
            | Some r' => Some (JObj [], r')
            | None => read_props f r []
            end
          else if (n =? 45)%nat then read_int true r
          else if is_digit c then read_int false (c :: r)
          else
            match c :: r with
            | "n"%char :: "u"%char :: "l"%char :: "l"%char :: r' => Some (JNull, r')
            | "t"%char :: "r"%char :: "u"%char :: "e"%char :: r' => Some (JBool true, r')
            | "f"%char :: "a"%char :: "l"%char :: "s"%char :: "e"%char :: r' =>
                Some (JBool false, r')
            | _ => None
            end
      end
  end

with read_items (fuel : nat) (s : list ascii) (acc : list json) {struct fuel}
  : option (json * list ascii) :=
  match fuel with
  | O => None
  | S f =>
      match read_value f s with
      | Some (v, r) =>
          match skip_ws r with
          | c :: r' =>
              if (nat_of_ascii c =? 44)%nat then read_items f r' (acc ++ [v])%list
              else if (nat_of_ascii c =? 93)%nat then Some (JArr (acc ++ [v])%list, r')
              else None
          | [] => None
          end
      | None => None
      end
  end

with read_props (fuel : nat) (s : list ascii) (acc : list (string * json)) {struct fuel}
  : option (json * list ascii) :=
  match fuel with
  | O => None
  | S f =>
      match starts_with 34 (skip_ws s) with
      | Some r0 =>
          match read_chars r0 with
          | Some (k, r1) =>
              if is_index_key k then None
              else
                match starts_with 58 (skip_ws r1) with
                | Some r2 =>
                    match read_value f r2 with
                    | Some (v, r3) =>
                        match skip_ws r3 with
                        | c :: r4 =>
                            if (nat_of_ascii c =? 44)%nat then read_props f r4 (set k v acc)
                            else if (nat_of_ascii c =? 125)%nat
                                 then Some (JObj (set k v acc), r4)
                            else None
                        | [] => None
                        end
                    | None => None
                    end
                | None => None
                end
          | None => None
          end
      | None => None
      end
  end.

Definition parse (text : string) : option json :=
  let s := list_ascii_of_string text in
  match read_value (2 * List.length s + 2) s with
  | Some (v, r) =>
      match skip_ws r with
      | [] => Some v
      | _ => None
      end
  | None => None
  end.

(** A double quote, and a quoted word: the notation for string constants
    used in examples of JSON text. *)
Definition dq : string := String (ascii_of_nat 34) EmptyString.
Definition q (s : string) : string := dq ++ s ++ dq.

End JsonReader.

(** ** Shared types (types/index.ts) *)

Inductive ProjectType : Type :=
| WebApp | CliTool | ApiService | Library | MobileApp | DesktopApp | Other.

Definition project_type_name (t : ProjectType) : string :=
  match t with
  | WebApp => "web-app"
  | CliTool => "cli-tool"
  | ApiService => "api-service"
  | Library => "library"
  | MobileApp => "mobile-app"
  | DesktopApp => "desktop-app"
  | Other => "other"
  end.

Definition ProjectType_eqb (a b : ProjectType) : bool :=
  String.eqb (project_type_name a) (project_type_name b).

Inductive SnapshotReason : Type :=
| Auto | Manual | TechChange | MajorUpdate | DependencyChange.

Definition snapshot_reason_name (r : SnapshotReason) : string :=
  match r with
  | Auto => "auto"
  | Manual => "manual"
  | TechChange => "tech-change"
  | MajorUpdate => "major-update"
  | DependencyChange => "dependency-change"
  end.

Inductive Role : Type := RUser | RAssistant | RSystem.

Definition role_name (r : Role) : string :=
  match r with
  | RUser => "user"
  | RAssistant => "assistant"
  | RSystem => "system"
  end.

(** An element of [files]: [{ path, content }]. *)
Record FileInput : Type := mkFile { path : string; content : string }.

(** An element of [conversation]: [{ role, content }]. *)
Record Message : Type := mkMessage { role : Role; text : string }.

(** ** ProjectManager.detectTechStack and calculateContextHash *)

Module TechStack.
Import JsString Json.

(** The local variables of detectTechStack. *)
Record Detection : Type := mkDetection {
  tech_stack : list (string * json);
  programming_languages : list string;
  project_type : ProjectType;
  build_system : option string;
  test_framework : option string
}.

Definition initial : Detection := mkDetection [] [] Other None None.

(** [Set.prototype.add] on a set kept in insertion order. *)
Definition set_add (x : string) (l : list string) : list string :=
  if existsb (String.eqb x) l then l else (l ++ [x])%list.

Definition add_language (x : string) (d : Detection) : Detection :=
  mkDetection (tech_stack d) (set_add x (programming_languages d))
              (project_type d) (build_system d) (test_framework d).

Definition put (k : string) (v : json) (d : Detection) : Detection :=
  mkDetection (set k v (tech_stack d)) (programming_languages d)
              (project_type d) (build_system d) (test_framework d).

Definition with_type (t : ProjectType) (d : Detection) : Detection :=
  mkDetection (tech_stack d) (programming_languages d) t
              (build_system d) (test_framework d).

Definition with_build (b : string) (d : Detection) : Detection :=
  mkDetection (tech_stack d) (programming_languages d) (project_type d)
              (Some b) (test_framework d).

Definition with_test (t : string) (d : Detection) : Detection :=
  mkDetection (tech_stack d) (programming_languages d) (project_type d)
              (build_system d) (Some t).

(** [path.split('.').pop()?.toLowerCase()] *)
Definition extension (p : string) : string := toLowerCase (pop (split "."%char p)).

Definition when (b : bool) (f : Detection -> Detection) (d : Detection) : Detection :=
  if b then f d else d.

Definition is_script_ext (ext : string) : bool :=
  String.eqb ext "ts" || String.eqb ext "tsx" || String.eqb ext "js" || String.eqb ext "jsx".

(** The branch for .ts, .tsx, .js and .jsx sources. *)
Definition detect_script (ext content : string) (d : Detection) : Detection :=
  let d := add_language
             (if String.eqb ext "ts" || String.eqb ext "tsx" then "typescript"
              else "javascript") d in
  let d := when (includes content "import React"
                 || includes content ("from " ++ JsonReader.q "react")
                 || includes content "from 'react'")
                (fun d => with_type WebApp (put "react" (JBool true) d)) d in
  let d := when (includes content "require(" || includes content "module.exports"
                 || includes content "const express")
                (put "nodejs" (JBool true)) d in
  let d := when (includes content "import { createApp }"
                 || includes content ("from " ++ JsonReader.q "vue"))
                (fun d => with_type WebApp (put "vue" (JBool true) d)) d in
  when (includes content "@angular/core" || includes content "NgModule")
       (fun d => with_type WebApp (put "angular" (JBool true) d)) d.

(** The branch for .py sources. *)
Definition detect_python (content : string) (d : Detection) : Detection :=
  let d := add_language "python" d in
  let d := when (includes content "import flask" || includes content "from flask")
                (fun d => with_type ApiService (put "flask" (JBool true) d)) d in
  let d := when (includes content "import django" || includes content "from django")
                (fun d => with_type WebApp (put "django" (JBool true) d)) d in
  when (includes content "import fastapi" || includes content "from fastapi")
       (fun d => with_type ApiService (put "fastapi" (JBool true) d)) d.

Definition string_array (l : list string) : json := JArr (map JStr l).

(** [Object.keys(v || {})] *)
Definition keys_or_empty (v : option json) : list string :=
  match v with
  | Some x => if truthy x then keys x else []
  | None => []
  end.

Definition names_package_manager (s : string) : bool :=
  includes s "npm" || includes s "yarn" || includes s "pnpm".

(** The project type read off the [dependencies] of package.json, when
    there is one. *)
Definition manifest_type (deps : option json) : option ProjectType :=
  if truthy_opt (opt_member deps "express") || truthy_opt (opt_member deps "fastify")
  then Some ApiService
  else if truthy_opt (opt_member deps "react") || truthy_opt (opt_member deps "@types/react")
  then Some WebApp
  else if truthy_opt (opt_member deps "electron") then Some DesktopApp
  else if truthy_opt (opt_member deps "react") || truthy_opt (opt_member deps "@react-native")
  then Some MobileApp
  else None.

Definition manifest_test_framework (devDeps : json) : option string :=
  let has k := truthy_opt (opt_member (Some devDeps) k) in
  if has "jest" || has "@jest/core" then Some "jest"
  else if has "vitest" then Some "vitest"
  else if has "mocha" then Some "mocha"
  else if has "pytest" then Some "pytest"
  else None.

(** The body of the [try] for package.json once the text has parsed to a
    value other than [null] (on [null] the first property access throws
    and the [catch] leaves the detection as it was). *)
Definition detect_package (packageData : json) (d : Detection) : Detection :=
  let deps := opt_member (Some packageData) "dependencies" in
  let devs := opt_member (Some packageData) "devDependencies" in
  let scripts := opt_member (Some packageData) "scripts" in
  let d := put "npm_packages" (string_array (keys_or_empty deps)) d in
  let d := put "dev_packages" (string_array (keys_or_empty devs)) d in
  let d := when (truthy_opt scripts
                 && existsb names_package_manager (keys_or_empty scripts))
                (with_build "npm") d in
  let d := match devs with
           | Some dv =>
               if truthy dv then
                 match manifest_test_framework dv with
                 | Some t => with_test t d
                 | None => d
                 end
               else d
           | None => d
           end in
  match manifest_type deps with
  | Some t => with_type t d
  | None => d
  end.

(** The body of the [try] for tsconfig.json once the text has parsed. *)
Definition detect_tsconfig (tsConfig : json) (d : Detection) : Detection :=
  let d := put "tsconfig" tsConfig d in
  match member tsConfig "compilerOptions" with
  | None => d
  | Some co =>
      match opt_member co "target" with
      | Some target => if truthy target then put "typescript_target" target d else d
      | None => d
      end
  end.

Definition detect_requirements (content : string) (d : Detection) : Detection :=
  let d := add_language "python" d in
  let dependencies :=
    filter (fun line => negb (trim_is_empty line)) (split (ascii_of_nat 10) content) in
  let d := put "python_packages" (string_array dependencies) d in
  if existsb (fun dep => includes dep "django") dependencies then with_type WebApp d
  else if existsb (fun dep => includes dep "flask" || includes dep "fastapi") dependencies
  then with_type ApiService d
  else d.

Definition detect_cargo (content : string) (d : Detection) : Detection :=
  let d := add_language "rust" d in
  let cargoContent := toLowerCase content in
  if includes cargoContent "axum" then with_type ApiService d
  else if includes cargoContent "yew" then with_type WebApp d
  else with_type CliTool d.

Definition detect_gomod (content : string) (d : Detection) : Detection :=
  let d := add_language "go" d in
  with_type (if includes content "github.com/gin-gonic" then ApiService else CliTool) d.

Section Detect.

Variable JSON_parse : string -> option json.

(** The [try] block for package.json: a text that does not parse, or
    that parses to [null] (on which the first property access throws),
    ends in the [catch] with the detection as it was. *)
Definition try_package (c : string) (d : Detection) : Detection :=
  match JSON_parse c with
  | Some JNull | None => d
  | Some packageData => detect_package packageData d
  end.

(** The [try] block for tsconfig.json. *)
Definition try_tsconfig (c : string) (d : Detection) : Detection :=
  match JSON_parse c with
  | Some tsConfig => detect_tsconfig tsConfig d
  | None => d
  end.

(** One turn of [for (const file of files)]. *)
Definition detect_file (d : Detection) (file : FileInput) : Detection :=
  let p := path file in
  let c := content file in
  let ext := extension p in
  let d := when (is_script_ext ext) (detect_script ext c) d in
  let d := when (String.eqb ext "py") (detect_python c) d in
  let d := when (String.eqb p "package.json") (try_package c) d in
  let d := when (String.eqb p "tsconfig.json") (try_tsconfig c) d in
  let d := when (String.eqb p "requirements.txt") (detect_requirements c) d in
  let d := when (String.eqb p "Cargo.toml") (detect_cargo c) d in
  when (String.eqb p "go.mod") (detect_gomod c) d.

Definition has_language (x : string) (d : Detection) : bool :=
  existsb (String.eqb x) (programming_languages d).

(** "Determine project type if not set". *)
Definition default_type (d : Detection) : Detection :=
  if ProjectType_eqb (project_type d) Other then
    if has_language "typescript" d || has_language "javascript" d then with_type CliTool d
    else if has_language "python" d then with_type CliTool d
    else d
  else d.

Definition detectTechStack (files : list FileInput) : Detection :=
  default_type (fold_left detect_file files initial).

End Detect.

(** [Array.prototype.sort] without a comparator, on strings: ascending
    order of code units. *)
Fixpoint insert_sorted (x : string) (l : list string) : list string :=
  match l with
  | [] => [x]
  | y :: r => if String.leb x y then x :: l else y :: insert_sorted x r
  end.

Fixpoint sort (l : list string) : list string :=
  match l with
  | [] => []
  | x :: r => insert_sorted x (sort r)
  end.

(** [JSON.stringify(tech_stack, Object.keys(tech_stack).sort())], then
    SHA-256 in hexadecimal. *)
Definition hashInput (tech_stack : list (string * json)) : string :=
  stringify_with_keys (JObj tech_stack) (sort (keys (JObj tech_stack))).

Definition calculateContextHash (tech_stack : list (string * json)) : string :=
  Sha256.sha256_hex (hashInput tech_stack).

End TechStack.

(** ** The relational store

    Tables are lists of rows in insertion order.  The checks are those of
    CREATE_TABLES_SQL, CREATE_PROJECT_CONTEXTS_SQL and
    CREATE_PROJECT_CONTEXT_SNAPSHOTS_SQL, and the trigger is that of
    CREATE_SNAPSHOT_TRIGGER_SQL.  Left out: the users table (every caller
    is taken to be a registered user, so the foreign key to it holds),
    columns that no modelled statement reads or writes, and the time
    stamps of project contexts and snapshots. *)

Module Store.
Import JsString Json.

Definition Id : Type := nat.
Definition Time : Type := Z.

Record SessionRow : Type := mkSession {
  s_id : Id;
  s_user_id : string;
  s_name : string;
  s_project_name : string;
  s_version : Z;
  s_metadata : json;
  s_snapshot_id : option Id;
  s_created_at : Time;
  s_updated_at : Time
}.

Record FileRow : Type := mkFileRow {
  f_id : Id;
  f_session_id : Id;
  f_path : string;
  f_content : string;
  f_content_hash : string;
  f_line_count : Z
}.

Record ConversationRow : Type := mkConversation {
  c_id : Id;
  c_session_id : Id;
  c_role : Role;
  c_content : string;
  c_message_order : Z;
  c_created_at : Time
}.

Record ProjectContextRow : Type := mkContext {
  pc_id : Id;
  pc_user_id : string;
  pc_project_name : string;
  pc_description : option json;
  pc_tech_stack : json;
  pc_project_type : option ProjectType;
  pc_programming_languages : json;
  pc_build_system : option string;
  pc_test_framework : option string;
  pc_is_active : bool;
  pc_context_hash : option string
}.

Record SnapshotRow : Type := mkSnapshot {
  ps_id : Id;
  ps_project_context_id : Id;
  ps_snapshot_version : Z;
  ps_file_tree : json;
  ps_key_files : json;
  ps_dependencies : json;
  ps_dev_dependencies : json;
  ps_snapshot_reason : SnapshotReason;
  ps_created_by : string
}.

Record Tables : Type := mkTables {
  sessions : list SessionRow;
  files : list FileRow;
  conversations : list ConversationRow;
  project_contexts : list ProjectContextRow;
  project_context_snapshots : list SnapshotRow
}.

Definition no_rows : Tables := mkTables [] [] [] [] [].

(** The committed state of the database and its identifier generator. *)
Record Db : Type := mkDb { tables : Tables; next_id : Id }.

Definition empty_db : Db := mkDb no_rows 1.

Inductive Error : Type :=
| AuthRequired (message : string)
| ConstraintViolation (constraint : string)
| NotFound (message : string)
| TypeError (message : string)
| StoreError (message : string).

Inductive Result (A : Type) : Type :=
| Ok (a : A)
| Err (e : Error).
Arguments Ok {A} a.
Arguments Err {A} e.

(** *** SQL operators *)

(** [length(trim(x)) > 0]: SQL [trim] removes spaces only. *)
Definition sql_blank (s : string) : bool :=
  all_chars (fun c => (nat_of_ascii c =? 32)%nat) s.

(** [s LIKE p] with the default escape character; a pattern that ends in
    a lone backslash is rejected by PostgreSQL, and the patterns of the
    engine all end in a percent sign. *)
Fixpoint like (p : list ascii) (s : list ascii) {struct p} : bool :=
  match p with
  | [] => match s with [] => true | _ => false end
  | c :: p' =>
      let n := nat_of_ascii c in
      if (n =? 37)%nat then
        (fix any (t : list ascii) : bool :=
           like p' t || match t with [] => false | _ :: t' => any t' end) s
      else if (n =? 95)%nat then
        match s with [] => false | _ :: s' => like p' s' end
      else if (n =? 92)%nat then
        match p' with
        | [] => false
        | e :: p'' =>
            match s with [] => false | d :: s' => Ascii.eqb e d && like p'' s' end
        end
      else
        match s with [] => false | d :: s' => Ascii.eqb c d && like p' s' end
  end.

(** [s ILIKE p] *)
Definition ilike (s p : string) : bool :=
  like (list_ascii_of_string (toLowerCase p)) (list_ascii_of_string (toLowerCase s)).

(** ['%' + x + '%'] *)
Definition contains_pattern (x : string) : string := "%" ++ x ++ "%".

Fixpoint insert_by {A} (le : A -> A -> bool) (x : A) (l : list A) : list A :=
  match l with
  | [] => [x]
  | y :: r => if le y x then y :: insert_by le x r else x :: l
  end.

(** ORDER BY: a stable sort (rows that compare equal keep the order of
    the table). *)
Definition order_by {A} (le : A -> A -> bool) (l : list A) : list A :=
  fold_left (fun acc x => insert_by le x acc) l [].

Definition max_of (l : list Z) : option Z :=
  match l with
  | [] => None
  | x :: r => Some (fold_left Z.max r x)
  end.

(** *** Constraints *)

Definition int4_max : Z := 2147483647.

Definition session_key_eqb (a b : SessionRow) : bool :=
  String.eqb (s_user_id a) (s_user_id b) && String.eqb (s_name a) (s_name b)
  && String.eqb (s_project_name a) (s_project_name b)
  && (s_version a =? s_version b)%Z.

Definition check (ok : bool) (constraint : string) : option Error :=
  if ok then None else Some (ConstraintViolation constraint).

Fixpoint first_error (l : list (option Error)) : option Error :=
  match l with
  | [] => None
  | Some e :: _ => Some e
  | None :: r => first_error r
  end.

Definition session_violation (t : Tables) (r : SessionRow) : option Error :=
  first_error
    [ check (String.length (s_name r) <=? 100)%nat "sessions.name varchar(100)";
      check (String.length (s_project_name r) <=? 100)%nat "sessions.project_name varchar(100)";
      check (s_version r <=? int4_max)%Z "sessions.version integer";
      check (negb (sql_blank (s_name r))) "sessions_name_not_empty";
      check (negb (sql_blank (s_project_name r))) "sessions_project_name_not_empty";
      check (0 <? s_version r)%Z "sessions_version_positive";
      check (negb (existsb (session_key_eqb r) (sessions t)))
            "sessions_user_name_project_version_unique";
      check (match s_snapshot_id r with
             | Some sid => existsb (fun p => (ps_id p =? sid)%nat) (project_context_snapshots t)
             | None => true
             end) "sessions_snapshot_id_fkey" ].

Definition file_violation (t : Tables) (r : FileRow) : option Error :=
  first_error
    [ check (String.length (f_path r) <=? 500)%nat "files.path varchar(500)";
      check (existsb (fun s => (s_id s =? f_session_id r)%nat) (sessions t))
            "files_session_id_fkey";
      check (negb (sql_blank (f_path r))) "files_path_not_empty";
      check (0 <=? f_line_count r)%Z "files_line_count_non_negative";
      check (String.length (f_content_hash r) =? 64)%nat "files_content_hash_valid";
      check (negb (existsb (fun f => (f_session_id f =? f_session_id r)%nat
                                     && String.eqb (f_path f) (f_path r)) (files t)))
            "files_session_path_unique" ].

Definition conversation_violation (t : Tables) (r : ConversationRow) : option Error :=
  first_error
    [ check (existsb (fun s => (s_id s =? c_session_id r)%nat) (sessions t))
            "conversations_session_id_fkey";
      check (negb (sql_blank (c_content r))) "conversations_content_not_empty";
      check (0 <=? c_message_order r)%Z "conversations_message_order_non_negative";
      check (negb (existsb (fun c => (c_session_id c =? c_session_id r)%nat
                                     && (c_message_order c =? c_message_order r)%Z)
                           (conversations t)))
            "conversations_session_order_unique" ].

Definition option_length_ok (n : nat) (s : option string) : bool :=
  match s with Some x => (String.length x <=? n)%nat | None => true end.

Definition context_violation (others : list ProjectContextRow) (r : ProjectContextRow)
  : option Error :=
  first_error
    [ check (String.length (pc_project_name r) <=? 100)%nat
            "project_contexts.project_name varchar(100)";
      check (option_length_ok 50 (pc_build_system r)) "project_contexts.build_system varchar(50)";
      check (option_length_ok 50 (pc_test_framework r))
            "project_contexts.test_framework varchar(50)";
      check (negb (sql_blank (pc_project_name r))) "project_contexts_project_name_not_empty";
      check (match pc_context_hash r with
             | Some h => (String.length h =? 64)%nat
             | None => true
             end) "project_contexts_context_hash_valid";
      check (negb (existsb (fun c => String.eqb (pc_user_id c) (pc_user_id r)
                                     && String.eqb (pc_project_name c) (pc_project_name r))
                           others))
            "project_contexts_user_project_unique" ].

Definition snapshot_violation (t : Tables) (r : SnapshotRow) : option Error :=
  first_error
    [ check (ps_snapshot_version r <=? int4_max)%Z "project_context_snapshots.snapshot_version integer";
      check (existsb (fun c => (pc_id c =? ps_project_context_id r)%nat) (project_contexts t))
            "project_context_snapshots_project_context_id_fkey";
      check (0 <? ps_snapshot_version r)%Z "project_context_snapshots_version_positive";
      check (negb (existsb (fun p => (ps_project_context_id p =? ps_project_context_id r)%nat
                                     && (ps_snapshot_version p =? ps_snapshot_version r)%Z)
                           (project_context_snapshots t)))
            "project_context_snapshots_context_version_unique" ].

(** *** Row insertion and selection on a set of tables *)

Definition add_session (r : SessionRow) (t : Tables) : Tables :=
  mkTables (sessions t ++ [r]) (files t) (conversations t)
           (project_contexts t) (project_context_snapshots t).

Definition add_file (r : FileRow) (t : Tables) : Tables :=
  mkTables (sessions t) (files t ++ [r]) (conversations t)
           (project_contexts t) (project_context_snapshots t).

Definition add_conversation (r : ConversationRow) (t : Tables) : Tables :=
  mkTables (sessions t) (files t) (conversations t ++ [r])
           (project_contexts t) (project_context_snapshots t).

Definition add_context (r : ProjectContextRow) (t : Tables) : Tables :=
  mkTables (sessions t) (files t) (conversations t)
           (project_contexts t ++ [r]) (project_context_snapshots t).

Definition set_contexts (l : list ProjectContextRow) (t : Tables) : Tables :=
  mkTables (sessions t) (files t) (conversations t) l (project_context_snapshots t).

Definition add_snapshot (r : SnapshotRow) (t : Tables) : Tables :=
  mkTables (sessions t) (files t) (conversations t)
           (project_contexts t) (project_context_snapshots t ++ [r]).

(** The rows of both sets of tables. *)
Definition union (a b : Tables) : Tables :=
  mkTables (sessions a ++ sessions b) (files a ++ files b)
           (conversations a ++ conversations b)
           (project_contexts a ++ project_contexts b)
           (project_context_snapshots a ++ project_context_snapshots b).

(** [SELECT COALESCE(MAX(snapshot_version), 0) ... WHERE project_context_id = $1] *)
Definition max_snapshot_version (t : Tables) (ctx : Id) : Z :=
  match max_of (map ps_snapshot_version
                    (filter (fun p => (ps_project_context_id p =? ctx)%nat)
                            (project_context_snapshots t))) with
  | Some v => v
  | None => 0%Z
  end.

(** [SELECT MAX(version) ... WHERE user_id = $1 AND name = $2 AND project_name = $3] *)
Definition same_key (userId name project : string) (s : SessionRow) : bool :=
  String.eqb (s_user_id s) userId && String.eqb (s_name s) name
  && String.eqb (s_project_name s) project.

Definition max_version (t : Tables) (userId name project : string) : option Z :=
  max_of (map s_version (filter (same_key userId name project) (sessions t))).

End Store.

(** ** Connections and transactions (database/connection.ts)

    [DatabaseConnection.transaction] takes a client from the pool, sends
    BEGIN, runs the callback with that client and sends COMMIT, or
    ROLLBACK when the callback throws.  [DatabaseConnection.query] runs a
    statement on the pool: on a connection of its own, committed at once.
    While a callback runs, [pool] is what is committed, [own] holds the
    rows written through the callback's client, and the client reads
    both. *)

Module Connection.
Import Store.

Record Tx : Type := mkTx { pool : Tables; own : Tables; ctr : Id }.

Definition view (tx : Tx) : Tables := union (pool tx) (own tx).

(** A computation that runs inside a transaction callback. *)
Definition M (A : Type) : Type := Tx -> Tx * Result A.

Definition ret {A} (a : A) : M A := fun tx => (tx, Ok a).

Definition throw {A} (e : Error) : M A := fun tx => (tx, Err e).

Definition bind {A B} (m : M A) (k : A -> M B) : M B :=
  fun tx =>
    match m tx with
    | (tx', Ok a) => k a tx'
    | (tx', Err e) => (tx', Err e)
    end.

Declare Scope tx_scope.
Delimit Scope tx_scope with tx.
Notation "x <- m ;; k" := (bind m (fun x => k))
  (at level 100, m at next level, right associativity) : tx_scope.
Notation "m ;;; k" := (bind m (fun _ => k))
  (at level 100, right associativity) : tx_scope.
Local Open Scope tx_scope.

(** [for (const x of l) await f(x)] *)
Fixpoint for_each {A} (f : A -> M unit) (l : list A) : M unit :=
  match l with
  | [] => ret tt
  | x :: r => f x ;;; for_each f r
  end.

(** [gen_random_uuid()] *)
Definition fresh : M Id :=
  fun tx => (mkTx (pool tx) (own tx) (S (ctr tx)), Ok (ctr tx)).

(** A query on the pool. *)
Definition pool_read {A} (f : Tables -> A) : M A := fun tx => (tx, Ok (f (pool tx))).

(** A statement on the pool that writes: its effect is committed. *)
Definition pool_write (violation : Tables -> option Error) (f : Tables -> Tables) : M unit :=
  fun tx =>
    match violation (pool tx) with
    | Some e => (tx, Err e)
    | None => (mkTx (f (pool tx)) (own tx) (ctr tx), Ok tt)
    end.

(** A query on the transaction's client. *)
Definition client_read {A} (f : Tables -> A) : M A := fun tx => (tx, Ok (f (view tx))).

(** An INSERT on the transaction's client. *)
Definition client_write (violation : Tables -> option Error) (f : Tables -> Tables) : M unit :=
  fun tx =>
    match violation (view tx) with
    | Some e => (tx, Err e)
    | None => (mkTx (pool tx) (f (own tx)) (ctr tx), Ok tt)
    end.

(** [db.transaction(callback)] *)
Definition transaction {A} (callback : M A) (db : Db) : Db * Result A :=
  match callback (mkTx (tables db) no_rows (next_id db)) with
  | (tx, Ok a) => (mkDb (view tx) (ctr tx), Ok a)
  | (tx, Err e) => (mkDb (pool tx) (ctr tx), Err e)
  end.

(** The trigger create_snapshot_on_new_session (BEFORE INSERT ON
    sessions, function detect_tech_stack_changes). *)
Definition active_context (userId project : string) (c : ProjectContextRow) : bool :=
  String.eqb (pc_user_id c) userId && String.eqb (pc_project_name c) project
  && pc_is_active c.

Definition bootstrap_snapshot (ctx : Id) (should_create : bool) (NEW : SessionRow)
  : M SessionRow :=
  current_snapshot_version <- client_read (fun t => max_snapshot_version t ctx) ;;
  if should_create || (current_snapshot_version =? 0)%Z then
    id <- fresh ;;
    let row := mkSnapshot id ctx (current_snapshot_version + 1) (Json.JObj []) (Json.JArr [])
                          (Json.JObj []) (Json.JObj []) Auto "auto" in
    client_write (fun t => snapshot_violation t row) (add_snapshot row) ;;;
    ret (mkSession (s_id NEW) (s_user_id NEW) (s_name NEW) (s_project_name NEW)
                   (s_version NEW) (s_metadata NEW) (Some id)
                   (s_created_at NEW) (s_updated_at NEW))
  else ret NEW.

Definition detect_tech_stack_changes (NEW : SessionRow) : M SessionRow :=
  current <- client_read (fun t =>
               find (active_context (s_user_id NEW) (s_project_name NEW))
                    (project_contexts t)) ;;
  match current with
  | Some c => bootstrap_snapshot (pc_id c) false NEW
  | None =>
      id <- fresh ;;
      let row := mkContext id (s_user_id NEW) (s_project_name NEW)
                           (Some (Json.JStr "Auto-detected project context"))
                           (Json.JObj []) None (Json.JArr []) None None true None in
      client_write (fun t => context_violation (project_contexts t) row) (add_context row) ;;;
      bootstrap_snapshot id true NEW
  end.

(** [INSERT INTO sessions ... RETURNING id, created_at] on the client. *)
Definition insert_session (userId name project : string) (version : Z)
    (metadata : Json.json) (snapshot_id : option Id) (now : Time) : M SessionRow :=
  id <- fresh ;;
  row <- detect_tech_stack_changes
           (mkSession id userId name project version metadata snapshot_id now now) ;;
  client_write (fun t => session_violation t row) (add_session row) ;;;
  ret row.

(** [INSERT INTO files ...] on the client. *)
Definition insert_file (session_id : Id) (path content content_hash : string)
    (line_count : Z) : M unit :=
  id <- fresh ;;
  let row := mkFileRow id session_id path content content_hash line_count in
  client_write (fun t => file_violation t row) (add_file row).

(** [INSERT INTO conversations ...] on the client; message_order takes
    its default, 0. *)
Definition insert_conversation (session_id : Id) (r : Role) (content : string)
    (created_at : Time) : M unit :=
  id <- fresh ;;
  let row := mkConversation id session_id r content 0 created_at in
  client_write (fun t => conversation_violation t row) (add_conversation row).

End Connection.

(** ** ProjectManager: project contexts and snapshots *)

Module ProjectManager.
Import JsString Json Store Connection TechStack.
Local Open Scope tx_scope.

Definition id_text (id : Id) : string := string_of_nat id.

Definition number (n : nat) : json := JNum (string_of_nat n).

Definition or_unknown (ext : string) : string :=
  if String.eqb ext "" then "unknown" else ext.

Definition key_file_names : list string :=
  ["package.json"; "tsconfig.json"; "requirements.txt"; "Cargo.toml"; "go.mod";
   "README.md"; ".gitignore"; "Dockerfile"; "docker-compose.yml"].

Definition is_key_file (file : FileInput) : bool :=
  let ext := extension (path file) in
  existsb (String.eqb (path file)) key_file_names
  || String.eqb ext "md"
  || (String.eqb ext "json" && includes (path file) "config").

(** Key-file content is cut at 10000 characters. *)
Definition truncate (content : string) : string :=
  if (10000 <? String.length content)%nat then substring0 10000 content ++ "..."
  else content.

Definition file_tree_entry (timestamp : string) (file : FileInput) : json :=
  JObj [("size", number (String.length (content file)));
        ("type", JStr (or_unknown (extension (path file))));
        ("last_modified", JStr timestamp)].

Definition build_file_tree (timestamp : string) (files : list FileInput)
  : list (string * json) :=
  fold_left (fun tree file => set (path file) (file_tree_entry timestamp file) tree)
            files [].

Definition key_file_entry (file : FileInput) : json :=
  JObj [("path", JStr (path file));
        ("type", JStr (or_unknown (extension (path file))));
        ("content", JStr (truncate (content file)))].

Definition build_key_files (files : list FileInput) : list json :=
  map key_file_entry (filter is_key_file files).

Definition or_empty_object (v : option json) : json :=
  match v with
  | Some x => if truthy x then x else JObj []
  | None => JObj []
  end.

Section WithParser.

Variable JSON_parse : string -> option json.

(** The second loop of createSnapshot: the dependency maps of the last
    package.json that parses to something other than [null]. *)
Definition dependency_maps (files : list FileInput) : json * json :=
  fold_left
    (fun acc file =>
       if String.eqb (path file) "package.json" then
         match JSON_parse (content file) with
         | Some JNull | None => acc
         | Some packageData =>
             (or_empty_object (opt_member (Some packageData) "dependencies"),
              or_empty_object (opt_member (Some packageData) "devDependencies"))
         end
       else acc)
    files (JObj [], JObj []).

Definition same_project (userId projectName : string) (c : ProjectContextRow) : bool :=
  String.eqb (pc_user_id c) userId && String.eqb (pc_project_name c) projectName.

(** getProjectContext: a query on the pool. *)
Definition getProjectContext (userId projectName : string) : M (option ProjectContextRow) :=
  pool_read (fun t => find (active_context userId projectName) (project_contexts t)).

Definition or_null (v : option json) : option json :=
  match v with
  | Some x => if truthy x then Some x else None
  | None => None
  end.

Definition or_null_string (v : option string) : option string :=
  match v with
  | Some x => if String.eqb x "" then None else Some x
  | None => None
  end.

(** The column values that createOrUpdateProjectContext writes, on the
    row identified by [id]. *)
Definition context_row (id : Id) (userId projectName : string)
    (files : list FileInput) (description : option json) : ProjectContextRow :=
  let techInfo := detectTechStack JSON_parse files in
  mkContext id userId projectName (or_null description)
            (JObj (tech_stack techInfo)) (Some (project_type techInfo))
            (string_array (programming_languages techInfo))
            (or_null_string (build_system techInfo))
            (or_null_string (test_framework techInfo))
            true
            (Some (calculateContextHash (tech_stack techInfo))).

(** The UPDATE of createOrUpdateProjectContext: every row of (user,
    project) takes the new column values and keeps its identifier. *)
Definition update_contexts (userId projectName : string) (files : list FileInput)
    (description : option json) (l : list ProjectContextRow) : list ProjectContextRow :=
  map (fun c => if same_project userId projectName c
                then context_row (pc_id c) userId projectName files description
                else c) l.

(** createOrUpdateProjectContext: a transaction of its own on the pool,
    that reads the context of (user, project) and updates or inserts it. *)
Definition createOrUpdateProjectContext (userId projectName : string)
    (files : list FileInput) (description : option json) : M ProjectContextRow :=
  existing <- pool_read (fun t =>
                find (same_project userId projectName) (project_contexts t)) ;;
  match existing with
  | Some c =>
      let row := context_row (pc_id c) userId projectName files description in
      pool_write
        (fun t => context_violation
                    (filter (fun c' => negb (same_project userId projectName c'))
                            (project_contexts t)) row)
        (fun t => set_contexts
                    (update_contexts userId projectName files description
                                     (project_contexts t)) t) ;;;
      ret row
  | None =>
      id <- fresh ;;
      let row := context_row id userId projectName files description in
      pool_write (fun t => context_violation (project_contexts t) row) (add_context row) ;;;
      ret row
  end.

(** createSnapshot: two statements on the pool. *)
Definition createSnapshot (projectContextId : Id) (files : list FileInput)
    (snapshotReason : SnapshotReason) (timestamp : string) : M SnapshotRow :=
  max_version <- pool_read (fun t => max_snapshot_version t projectContextId) ;;
  let nextVersion := (max_version + 1)%Z in
  let fileTree := build_file_tree timestamp files in
  let keyFiles := build_key_files files in
  let deps := dependency_maps files in
  id <- fresh ;;
  let row := mkSnapshot id projectContextId nextVersion (JObj fileTree) (JArr keyFiles)
                        (fst deps) (snd deps) snapshotReason "auto" in
  pool_write (fun t => snapshot_violation t row) (add_snapshot row) ;;;
  ret row.

End WithParser.

End ProjectManager.

(** ** Tool inputs and outputs (types/index.ts) *)

Module SaveContextInput.
Record t : Type := make {
  session_name : string;
  project_name : string;
  files : option (list FileInput);
  conversation : list Message;
  metadata : option (list (string * Json.json))
}.
End SaveContextInput.

Inductive SaveStatus : Type := Saved | Versioned.

Module SaveContextOutput.
Record t : Type := make {
  session_id : Store.Id;
  status : SaveStatus;
  message : string;
  version : Z;
  project_context_id : option Store.Id
}.
End SaveContextOutput.

Module ResumeContextInput.
Record t : Type := make {
  session_name : string;
  project_name : option string;
  file_path : option string
}.
End ResumeContextInput.

Module AmbiguousMatch.
Record t : Type := make {
  session_id : Store.Id;
  session_name : string;
  project_name : string;
  version : Z;
  files : list string;
  created_at : Store.Time;
  metadata : Json.json
}.
End AmbiguousMatch.

Module ResumeContextOutput.
Record t : Type := make {
  session_id : Store.Id;
  session_name : string;
  project_name : string;
  version : Z;
  files : list FileInput;
  conversation : list Message;
  metadata : list (string * option Json.json);
  summaries : list (string * string)
}.
End ResumeContextOutput.

Module ListContextsInput.
Record t : Type := make {
  project_name : option string;
  file_path : option string;
  limit : option nat;
  offset : option nat
}.
End ListContextsInput.

Module ListedSession.
Record t : Type := make {
  session_id : Store.Id;
  session_name : string;
  project_name : string;
  version : Z;
  files : list string;
  created_at : Store.Time;
  updated_at : Store.Time
}.
End ListedSession.

Module ListContextsOutput.
Record t : Type := make {
  sessions : list ListedSession.t;
  total : nat;
  limit : nat;
  offset : nat
}.
End ListContextsOutput.

(** What resumeSession resolves to: the full session, or [{ matches }]. *)
Inductive ResumeResult : Type :=
| Full (session : ResumeContextOutput.t)
| Matches (matches : list AmbiguousMatch.t).

(** The two readings of the clock that a save uses: [NOW()] in the store
    and [new Date().toISOString()] in the engine. *)
Record Clock : Type := mkClock { now : Store.Time; iso : string }.

(** ** SessionManager *)

Module SessionManager.
Import JsString Json Store Connection TechStack ProjectManager.
Local Open Scope tx_scope.

(** A string or [undefined] in a condition. *)
Definition truthy_string (s : option string) : bool :=
  match s with
  | Some x => negb (String.eqb x "")
  | None => false
  end.

Definition message_section (msg : Message) : string :=
  "### " ++ toUpperCase (role_name (role msg)) ++ nl ++ text msg.

(** createSyntheticFile *)
Definition createSyntheticFile (input : SaveContextInput.t) (timestamp : string)
  : FileInput :=
  let recentMessages := slice_last 10 (SaveContextInput.conversation input) in
  let conversationSection :=
    match recentMessages with
    | [] => "No conversation captured."
    | _ => join (nl ++ nl) (map message_section recentMessages)
    end in
  let metadataSection :=
    match SaveContextInput.metadata input with
    | Some (p :: r) => stringify_pretty2 (JObj (p :: r))
    | _ => "None"
    end in
  mkFile "CONVERSATION_SUMMARY.md"
    (join nl
       [ "# Context Engine Snapshot";
         "";
         "- Session: " ++ SaveContextInput.session_name input;
         "- Project: " ++ SaveContextInput.project_name input;
         "- Generated: " ++ timestamp;
         "";
         "## Metadata";
         metadataSection;
         "";
         "## Conversation";
         conversationSection;
         "" ]).

Definition calculateContentHash : string -> string := ContentHash.calculateContentHash.

(** [input.files && input.files.length > 0 ? input.files : [synthetic]] *)
Definition normalizedFiles (input : SaveContextInput.t) (timestamp : string)
  : list FileInput :=
  match SaveContextInput.files input with
  | Some (f :: r) => f :: r
  | _ => [createSyntheticFile input timestamp]
  end.

(** [!input.files || input.files.length === 0] *)
Definition filesWereSynthetic (input : SaveContextInput.t) : bool :=
  match SaveContextInput.files input with
  | Some (_ :: _) => false
  | _ => true
  end.

(** An object literal whose property values may be [undefined], and what
    [JSON.stringify] keeps of it. *)
Definition set_all (entries : list (string * option json))
    (l : list (string * option json)) : list (string * option json) :=
  fold_left (fun acc e => set (fst e) (snd e) acc) entries l.

Definition defined (l : list (string * option json)) : list (string * json) :=
  flat_map (fun e => match snd e with Some v => [(fst e, v)] | None => [] end) l.

Definition id_json (id : Id) : json := JStr (id_text id).

(** The object stored in sessions.metadata. *)
Definition session_metadata (metadata : option (list (string * json)))
    (projectContext : option ProjectContextRow) (snapshotReason : SnapshotReason)
    (snapshotId : option Id) (synthetic : bool) : json :=
  let caller := match metadata with Some m => m | None => [] end in
  JObj (defined
    (set_all
       [ ("project_context_id", option_map (fun c => id_json (pc_id c)) projectContext);
         ("tech_stack_detected",
          Some (JBool (match projectContext with Some _ => true | None => false end)));
         ("snapshot_reason", Some (JStr (snapshot_reason_name snapshotReason)));
         ("snapshot_id",
          Some (match snapshotId with Some id => id_json id | None => JNull end));
         ("synthetic_files_added", Some (JBool synthetic)) ]
       (map (fun e => (fst e, Some (snd e))) caller))).

Definition line_count (content : string) : Z :=
  Z.of_nat (List.length (split (ascii_of_nat 10) content)).

Section WithRuntime.

Variable JSON_parse : string -> option json.

(** Step 1 of the callback: the project context and its snapshot, through
    the ProjectManager (which works on the pool). *)
Definition resolve_context (input : SaveContextInput.t) (userId : string)
    (files : list FileInput) (timestamp : string)
  : M (option ProjectContextRow * SnapshotReason * option Id) :=
  let project := SaveContextInput.project_name input in
  existingContext <- getProjectContext userId project ;;
  let currentTechInfo := detectTechStack JSON_parse files in
  let currentContextHash := calculateContextHash (tech_stack currentTechInfo) in
  let snapshotReason :=
    match existingContext with
    | Some c =>
        match pc_context_hash c with
        | Some h => if String.eqb h currentContextHash then Auto else TechChange
        | None => TechChange
        end
    | None => Auto
    end in
  projectContext <- createOrUpdateProjectContext JSON_parse userId project files
                      (match SaveContextInput.metadata input with
                       | Some m => lookup "description" m
                       | None => None
                       end) ;;
  snapshot <- createSnapshot JSON_parse (pc_id projectContext) files snapshotReason
                             timestamp ;;
  ret (Some projectContext, snapshotReason, Some (ps_id snapshot)).

Definition save_message (name : string) (currentVersion newVersion : Z) : string :=
  if (0 <? currentVersion)%Z
  then "Session saved as " ++ name ++ "-" ++ string_of_nat (Z.to_nat newVersion)
  else "Session saved as " ++ name.

(** Steps 2 to 5 of the callback, on the transaction's client: the next
    version, the session row, the file rows, the conversation rows. *)
Definition persist_session (input : SaveContextInput.t) (u : string) (clock : Clock)
    (files : list FileInput)
    (step1 : option ProjectContextRow * SnapshotReason * option Id)
  : M SaveContextOutput.t :=
  let '(projectContext, snapshotReason, snapshotId) := step1 in
  let name := SaveContextInput.session_name input in
  let project := SaveContextInput.project_name input in
  max_version <- client_read (fun t => max_version t u name project) ;;
  let currentVersion := match max_version with Some v => v | None => 0%Z end in
  let newVersion := (currentVersion + 1)%Z in
  session <- insert_session u name project newVersion
               (session_metadata (SaveContextInput.metadata input) projectContext
                                 snapshotReason snapshotId (filesWereSynthetic input))
               snapshotId (now clock) ;;
  let sessionId := s_id session in
  for_each (fun file =>
              insert_file sessionId (path file) (content file)
                          (calculateContentHash (content file))
                          (line_count (content file)))
           files ;;;
  let n := List.length (SaveContextInput.conversation input) in
  for_each (fun im =>
              insert_conversation sessionId (role (snd im)) (text (snd im))
                (now clock - (Z.of_nat n - Z.of_nat (fst im)))%Z)
           (combine (seq 0 n) (SaveContextInput.conversation input)) ;;;
  ret (SaveContextOutput.make sessionId
         (if (0 <? currentVersion)%Z then Versioned else Saved)
         (save_message name currentVersion newVersion)
         newVersion
         (option_map pc_id projectContext)).

(** The callback that saveSession hands to [db.transaction]. *)
Definition save_callback (input : SaveContextInput.t) (userId : option string)
    (clock : Clock) : M SaveContextOutput.t :=
  let files := normalizedFiles input (iso clock) in
  step1 <- (match userId with
            | Some u =>
                if truthy_string userId
                   && negb (String.eqb (SaveContextInput.project_name input) "")
                then resolve_context input u files (iso clock)
                else ret (None, Auto, None)
            | None => ret (None, Auto, None)
            end) ;;
  match userId with
  | None => throw (AuthRequired "User authentication required for session saving")
  | Some u =>
      if String.eqb u "" then
        throw (AuthRequired "User authentication required for session saving")
      else persist_session input u clock files step1
  end.

(** saveSession *)
Definition saveSession (input : SaveContextInput.t) (userId : option string)
    (clock : Clock) (db : Db) : Db * Result SaveContextOutput.t :=
  transaction (save_callback input userId clock) db.

End WithRuntime.

(** *** Reading sessions back *)

Definition result_bind {A B} (r : Result A) (k : A -> Result B) : Result B :=
  match r with
  | Ok a => k a
  | Err e => Err e
  end.

Fixpoint result_map {A B} (f : A -> Result B) (l : list A) : Result (list B) :=
  match l with
  | [] => Ok []
  | x :: r =>
      result_bind (f x) (fun y => result_bind (result_map f r) (fun ys => Ok (y :: ys)))
  end.

(** [ARRAY_AGG(DISTINCT f.path) FILTER (WHERE f.path IS NOT NULL)] over
    the files joined to a session: NULL when there is none. *)
Definition aggregated_paths (t : Tables) (session : Id) : option (list string) :=
  match filter (fun f => (f_session_id f =? session)%nat) (files t) with
  | [] => None
  | fs => Some (dedup (sort (map f_path fs)))
  end.

(** [files.filter(Boolean)], which throws on [null]. *)
Definition filter_Boolean (paths : option (list string)) : Result (list string) :=
  match paths with
  | Some l => Ok (filter (fun p => negb (String.eqb p "")) l)
  | None => Err (TypeError "Cannot read properties of null (reading 'filter')")
  end.

Definition newest_first (a b : SessionRow) : bool := (s_updated_at b <=? s_updated_at a)%Z.

Definition highest_version_first (a b : SessionRow) : bool :=
  (s_version b <=? s_version a)%Z.

(** The WHERE clause of fuzzySearchSessions. *)
Definition fuzzy_where (input : ResumeContextInput.t) (userId : string) (s : SessionRow)
  : bool :=
  String.eqb (s_user_id s) userId
  && ilike (s_name s) (contains_pattern (ResumeContextInput.session_name input))
  && match ResumeContextInput.project_name input with
     | Some p =>
         if String.eqb p "" then true else ilike (s_project_name s) (contains_pattern p)
     | None => true
     end.

Definition fuzzy_rows (input : ResumeContextInput.t) (userId : string) (t : Tables)
  : list SessionRow :=
  firstn 10 (order_by newest_first (filter (fuzzy_where input userId) (sessions t))).

(** fuzzySearchSessions *)
Definition fuzzySearchSessions (input : ResumeContextInput.t) (userId : string)
    (t : Tables) : Result (list AmbiguousMatch.t) :=
  if String.eqb userId "" then
    Err (AuthRequired "User authentication required for fuzzy search")
  else
    result_map
      (fun s =>
         result_bind (filter_Boolean (aggregated_paths t (s_id s)))
           (fun paths =>
              Ok (AmbiguousMatch.make (s_id s) (s_name s) (s_project_name s) (s_version s)
                                      paths (s_created_at s) (s_metadata s))))
      (fuzzy_rows input userId t).

(** The WHERE clause of the exact lookup:
    [user_id = $1 AND name = $2 AND ($3::text IS NULL OR project_name = $3)]. *)
Definition exact_where (input : ResumeContextInput.t) (userId : string) (s : SessionRow)
  : bool :=
  String.eqb (s_user_id s) userId
  && String.eqb (s_name s) (ResumeContextInput.session_name input)
  && match ResumeContextInput.project_name input with
     | Some p => String.eqb (s_project_name s) p
     | None => true
     end.

Definition exact_matches (input : ResumeContextInput.t) (userId : string) (t : Tables)
  : list SessionRow :=
  order_by highest_version_first (filter (exact_where input userId) (sessions t)).

(** The candidate built from a row of the exact lookup. *)
Definition candidate (s : SessionRow) : AmbiguousMatch.t :=
  AmbiguousMatch.make (s_id s) (s_name s) (s_project_name s) (s_version s) []
                      (s_created_at s) (s_metadata s).

(** [x ?? {}] and [x ?? []] on a column that may be NULL. *)
Definition nullish_or (d : json) (v : option json) : json :=
  match v with
  | Some JNull | None => d
  | Some x => x
  end.

(** The latest snapshot of a context: the join on
    [pcs.snapshot_version = (SELECT MAX(snapshot_version) ...)]. *)
Definition latest_snapshot (t : Tables) (ctx : Id) : option SnapshotRow :=
  find (fun p => (ps_project_context_id p =? ctx)%nat
                 && (ps_snapshot_version p =? max_snapshot_version t ctx)%Z)
       (project_context_snapshots t).

(** The [project_context] object of a full session, for a session row
    joined to the context [pc]. *)
Definition project_context_info (t : Tables) (s : SessionRow) (pc : ProjectContextRow)
  : json :=
  let pcs := latest_snapshot t (pc_id pc) in
  JObj [("id", id_json (pc_id pc));
        ("project_name",
         JStr (if String.eqb (pc_project_name pc) "" then s_project_name s
               else pc_project_name pc));
        ("tech_stack", nullish_or (JObj []) (Some (pc_tech_stack pc)));
        ("programming_languages", nullish_or (JArr []) (Some (pc_programming_languages pc)));
        ("project_type",
         JStr (match pc_project_type pc with
               | Some ty => project_type_name ty
               | None => "other"
               end));
        ("snapshot",
         JObj [("file_tree", nullish_or (JObj []) (option_map ps_file_tree pcs));
               ("dependencies", nullish_or (JObj []) (option_map ps_dependencies pcs));
               ("version",
                match pcs with
                | Some p =>
                    if (ps_snapshot_version p =? 0)%Z then number 1
                    else number (Z.to_nat (ps_snapshot_version p))
                | None => number 1
                end)])].

(** [LEFT JOIN project_contexts pc ON s.snapshot_id = pc.id] *)
Definition joined_context (t : Tables) (s : SessionRow) : option ProjectContextRow :=
  match s_snapshot_id s with
  | Some sid => find (fun c => (pc_id c =? sid)%nat) (project_contexts t)
  | None => None
  end.

Section Resume.

Variable JSON_parse : string -> option json.

(** The answer of the store to the query on summaries, for a session:
    rows (file_id, summary), or an error.  The engine never writes
    summaries, and the query names a column, file_id, that the DDL of
    schema.ts declares on neither summaries nor files; what the store
    answers is therefore taken as given. *)
Variable summaries_query : Id -> Result (list (option Id * string)).

(** The value of [sessionMetadata] in retrieveFullSession. *)
Definition session_metadata_object (raw : json) : list (string * json) :=
  match raw with
  | JStr text =>
      match JSON_parse text with
      | Some v => spread v
      | None => []
      end
  | JObj _ | JArr _ => spread raw
  | _ => []
  end.

Definition summary_path (filesResult : list FileRow) (file_id : option Id) : string :=
  match file_id with
  | Some id =>
      match find (fun f => (f_id f =? id)%nat) filesResult with
      | Some f => if String.eqb (f_path f) "" then "unknown" else f_path f
      | None => "unknown"
      end
  | None => "unknown"
  end.

Definition files_of (t : Tables) (sessionId : Id) (filePath : option string)
  : list FileRow :=
  order_by (fun a b => String.leb (f_path a) (f_path b))
    (filter (fun f => (f_session_id f =? sessionId)%nat
                      && (if truthy_string filePath
                          then match filePath with
                               | Some p => String.eqb (f_path f) p
                               | None => true
                               end
                          else true))
            (files t)).

Definition conversation_of (t : Tables) (sessionId : Id) : list ConversationRow :=
  order_by (fun a b => (c_created_at a <=? c_created_at b)%Z)
    (filter (fun c => (c_session_id c =? sessionId)%nat) (conversations t)).

(** retrieveFullSession *)
Definition retrieveFullSession (sessionId : Id) (filePath : option string) (t : Tables)
  : Result ResumeContextOutput.t :=
  match find (fun s => (s_id s =? sessionId)%nat) (sessions t) with
  | None => Err (NotFound "Session not found")
  | Some session =>
      let filesResult := files_of t sessionId filePath in
      let conversationResult := conversation_of t sessionId in
      result_bind (summaries_query sessionId) (fun summariesResult =>
        let projectContext :=
          option_map (project_context_info t session) (joined_context t session) in
        let sessionMetadata := session_metadata_object (s_metadata session) in
        Ok (ResumeContextOutput.make
              (s_id session) (s_name session) (s_project_name session) (s_version session)
              (map (fun f => mkFile (f_path f) (f_content f)) filesResult)
              (map (fun c => mkMessage (c_role c) (c_content c)) conversationResult)
              (set "project_context" projectContext
                   (map (fun e => (fst e, Some (snd e))) sessionMetadata))
              (map (fun sm => (summary_path filesResult (fst sm), snd sm))
                   summariesResult)))
  end.

(** resumeSession *)
Definition resumeSession (input : ResumeContextInput.t) (userId : option string)
    (db : Db) : Result ResumeResult :=
  let t := tables db in
  match userId with
  | None => Err (AuthRequired "User authentication required for session access")
  | Some u =>
      if String.eqb u "" then
        Err (AuthRequired "User authentication required for session access")
      else
        match exact_matches input u t with
        | [] => result_bind (fuzzySearchSessions input u t) (fun m => Ok (Matches m))
        | session :: more =>
            match more with
            | _ :: _ =>
                if negb (truthy_string (ResumeContextInput.project_name input))
                then Ok (Matches (map candidate (session :: more)))
                else result_bind
                       (retrieveFullSession (s_id session)
                                            (ResumeContextInput.file_path input) t)
                       (fun r => Ok (Full r))
            | [] =>
                result_bind
                  (retrieveFullSession (s_id session)
                                       (ResumeContextInput.file_path input) t)
                  (fun r => Ok (Full r))
            end
        end
  end.

End Resume.

(** The WHERE clause that listSessions builds. *)
Definition list_where (input : ListContextsInput.t) (userId : string) (t : Tables)
    (s : SessionRow) : bool :=
  String.eqb (s_user_id s) userId
  && (if truthy_string (ListContextsInput.project_name input)
      then match ListContextsInput.project_name input with
           | Some p => ilike (s_project_name s) (contains_pattern p)
           | None => true
           end
      else true)
  && (if truthy_string (ListContextsInput.file_path input)
      then match ListContextsInput.file_path input with
           | Some fp =>
               existsb (fun f => (f_session_id f =? s_id s)%nat
                                 && ilike (f_path f) (contains_pattern fp))
                       (files t)
           | None => true
           end
      else true).

(** [LIMIT $n OFFSET $m], where a NULL limit is no limit and a NULL
    offset is 0. *)
Definition limit_offset {A} (limit offset : option nat) (l : list A) : list A :=
  let rest := skipn (match offset with Some m => m | None => 0 end) l in
  match limit with
  | Some n => firstn n rest
  | None => rest
  end.

Definition list_rows (input : ListContextsInput.t) (userId : string) (t : Tables)
  : list SessionRow :=
  limit_offset (ListContextsInput.limit input) (ListContextsInput.offset input)
    (order_by newest_first (filter (list_where input userId t) (sessions t))).

(** [x || d] on a number that may be [undefined]. *)
Definition or_default (d : nat) (x : option nat) : nat :=
  match x with
  | Some 0 | None => d
  | Some n => n
  end.

(** listSessions *)
Definition listSessions (input : ListContextsInput.t) (userId : option string)
    (db : Db) : Result ListContextsOutput.t :=
  let t := tables db in
  match userId with
  | None => Err (AuthRequired "User authentication required for session listing")
  | Some u =>
      if String.eqb u "" then
        Err (AuthRequired "User authentication required for session listing")
      else
        let total := List.length (filter (list_where input u t) (sessions t)) in
        result_bind
          (result_map
             (fun s =>
                result_bind (filter_Boolean (aggregated_paths t (s_id s)))
                  (fun paths =>
                     Ok (ListedSession.make (s_id s) (s_name s) (s_project_name s)
                                            (s_version s) paths
                                            (s_created_at s) (s_updated_at s))))
             (list_rows input u t))
          (fun sessions =>
             Ok (ListContextsOutput.make sessions total
                   (or_default 20 (ListContextsInput.limit input))
                   (or_default 0 (ListContextsInput.offset input))))
  end.

End SessionManager.

(** * Properties *)

(** ** Strings *)

Module StringFacts.
Import JsString.

Lemma length_append (a b : string) :
  String.length (a ++ b) = String.length a + String.length b.
Proof.
  induction a as [|c a IH]; simpl; [reflexivity|]. now rewrite IH.
Qed.



Lemma repeat_char_length (c : ascii) (n : nat) : String.length (repeat_char c n) = n.
Proof.
  induction n as [|n IH]; simpl; [reflexivity|]. now rewrite IH.
Qed.

Lemma padStart_length (s : string) (n : nat) (c : ascii) :
  String.length s <= n -> String.length (padStart s n c) = n.
Proof.
  intros H. unfold padStart. rewrite length_append, repeat_char_length. lia.
Qed.

Lemma all_chars_append (p : ascii -> bool) (a b : string) :
  all_chars p (a ++ b) = all_chars p a && all_chars p b.
Proof.
  induction a as [|c a IH]; simpl; [reflexivity|].
  rewrite IH. now rewrite andb_assoc.
Qed.

Lemma all_chars_repeat (p : ascii -> bool) (c : ascii) (n : nat) :
  p c = true -> all_chars p (repeat_char c n) = true.
Proof.
  intros H. induction n as [|n IH]; simpl; [reflexivity|]. now rewrite H, IH.
Qed.

Lemma to_hex_aux_length (fuel : nat) :
  forall n acc, String.length (to_hex_aux fuel n acc) <= fuel + String.length acc.
Proof.
  induction fuel as [|f IH]; intros n acc; simpl; [lia|].
  destruct (n / 16 =? 0)%Z.
  - simpl. lia.
  - specialize (IH (n / 16)%Z (String (hex_digit (n mod 16)) acc)). simpl in IH. lia.
Qed.

Lemma hex_digit_is_hex (d : Z) : (0 <= d < 16)%Z -> is_hex_char (hex_digit d) = true.
Proof.
  intros H.
  assert (E : (d = 0 \/ d = 1 \/ d = 2 \/ d = 3 \/ d = 4 \/ d = 5 \/ d = 6 \/ d = 7
               \/ d = 8 \/ d = 9 \/ d = 10 \/ d = 11 \/ d = 12 \/ d = 13 \/ d = 14
               \/ d = 15)%Z) by lia.
  repeat (destruct E as [E|E]; [subst d; reflexivity|]). subst d. reflexivity.
Qed.

Lemma to_hex_aux_hex (fuel : nat) :
  forall n acc, all_chars is_hex_char acc = true ->
                all_chars is_hex_char (to_hex_aux fuel n acc) = true.
Proof.
  induction fuel as [|f IH]; intros n acc Hacc; simpl; [exact Hacc|].
  assert (Hd : is_hex_char (hex_digit (n mod 16)) = true).
  { apply hex_digit_is_hex. apply Z.mod_pos_bound. lia. }
  destruct (n / 16 =? 0)%Z.
  - simpl. now rewrite Hd, Hacc.
  - apply IH. simpl. now rewrite Hd, Hacc.
Qed.

End StringFacts.

(** ** The content hash *)

Module ContentHashFacts.
Import JsString ContentHash StringFacts.

Lemma to_int32_range (z : Z) : (- 2 ^ 31 <= Int32.to_int32 z < 2 ^ 31)%Z.
Proof.
  unfold Int32.to_int32.
  pose proof (Z.mod_pos_bound z (2 ^ 32)%Z ltac:(lia)) as H.
  destruct (z mod 2 ^ 32 <? 2 ^ 31)%Z eqn:E.
  - apply Z.ltb_lt in E. lia.
  - apply Z.ltb_ge in E. lia.
Qed.

Lemma step_range (h c : Z) : (- 2 ^ 31 <= step h c < 2 ^ 31)%Z.
Proof. unfold step, Int32.and. apply to_int32_range. Qed.

Lemma fold_step_range (codes : list Z) :
  forall h, (- 2 ^ 31 <= h < 2 ^ 31)%Z ->
            (- 2 ^ 31 <= fold_left step codes h < 2 ^ 31)%Z.
Proof.
  induction codes as [|c codes IH]; intros h Hh; simpl; [exact Hh|].
  apply IH, step_range.
Qed.

Lemma loop_range (codes : list Z) : (- 2 ^ 31 <= loop codes < 2 ^ 31)%Z.
Proof. unfold loop. apply fold_step_range. lia. Qed.

(** The absolute value of the 32-bit hash has at most 32 hexadecimal
    digits, so the padding always applies. *)
Lemma toString16_abs_length (h : Z) :
  (- 2 ^ 31 <= h < 2 ^ 31)%Z -> String.length (toString16 (Z.abs h)) <= 64.
Proof.
  intros H. unfold toString16.
  pose proof (to_hex_aux_length (S (Z.to_nat (Z.log2 (Z.abs h)))) (Z.abs h) "") as L.
  change (String.length "") with 0 in L.
  assert (Z.log2 (Z.abs h) <= 31)%Z.
  { destruct (Z.eq_dec (Z.abs h) 0) as [E|E]; [rewrite E; simpl; lia|].
    assert (Z.log2 (Z.abs h) < 32)%Z; [|lia].
    apply Z.log2_lt_pow2; lia. }
  pose proof (Z.log2_nonneg (Z.abs h)). lia.
Qed.

(** calculateContentHash always answers 64 characters. *)
Lemma calculateContentHash_length (content : string) :
  String.length (calculateContentHash content) = 64.
Proof.
  unfold calculateContentHash. apply padStart_length.
  apply toString16_abs_length, loop_range.
Qed.

(** All of them hexadecimal digits. *)
Lemma calculateContentHash_hex (content : string) :
  all_chars is_hex_char (calculateContentHash content) = true.
Proof.
  unfold calculateContentHash, padStart.
  rewrite all_chars_append, all_chars_repeat by reflexivity.
  unfold toString16. now rewrite to_hex_aux_hex.
Qed.

(** The digest is the padded hexadecimal text of a number between 0 and
    2^31: it takes at most 2^31 + 1 values. *)
Lemma calculateContentHash_small_range (content : string) :
  exists h : Z, (0 <= h <= 2 ^ 31)%Z
                /\ calculateContentHash content = padStart (toString16 h) 64 "0"%char.
Proof.
  exists (Z.abs (loop (charCodes content))). split; [|reflexivity].
  pose proof (loop_range (charCodes content)). lia.
Qed.

End ContentHashFacts.

(** C7 (the code departs from the claim).  hashContent is asked to be a
    cryptographic digest, collision-resistant enough to key files by
    content.  calculateContentHash is a 31-multiplier rolling hash on 32
    bits: the two-character contents "Aa" and "BB" differ and receive the
    same 64-character digest. *)
Theorem C7_content_hash_collision :
  "Aa" <> "BB"
  /\ SessionManager.calculateContentHash "Aa" = SessionManager.calculateContentHash "BB"
  /\ String.length (SessionManager.calculateContentHash "Aa") = 64.
Proof.
  split; [discriminate|]. split; reflexivity.
Qed.

(** ** The fingerprint of the tech-stack facts *)

Module FingerprintFacts.
Import JsString Json TechStack.

Definition le (a b : string) : Prop := String.leb a b = true.

Lemma leb_cases (a b : string) :
  String.leb a b = true <-> a = b \/ String_as_OT.lt a b.
Proof.
  unfold String.leb. split.
  - destruct (String.compare a b) eqn:E; intros H; try discriminate.
    + left. now apply String_as_OT.cmp_eq.
    + right. now apply String_as_OT.cmp_lt.
  - intros [->|H].
    + assert (E : String.compare b b = Eq) by now apply String_as_OT.cmp_eq.
      now rewrite E.
    + apply String_as_OT.cmp_lt in H. unfold String_as_OT.cmp in H. now rewrite H.
Qed.

Lemma le_trans (a b c : string) : le a b -> le b c -> le a c.
Proof.
  unfold le. rewrite !leb_cases. intros [->|H1] [->|H2]; auto.
  right. eapply String_as_OT.lt_trans; eassumption.
Qed.

Lemma le_antisym (a b : string) : le a b -> le b a -> a = b.
Proof. unfold le. intros H1 H2. now apply String.leb_antisym. Qed.

Lemma le_total (a b : string) : le a b \/ le b a.
Proof. apply String.leb_total. Qed.

Lemma insert_sorted_perm (x : string) (l : list string) :
  Permutation (insert_sorted x l) (x :: l).
Proof.
  induction l as [|y l IH]; simpl; [reflexivity|].
  destruct (String.leb x y); [reflexivity|].
  rewrite IH. apply perm_swap.
Qed.

Lemma sort_perm (l : list string) : Permutation (sort l) l.
Proof.
  induction l as [|x l IH]; simpl; [reflexivity|].
  rewrite insert_sorted_perm. now constructor.
Qed.

Lemma insert_sorted_sorted (x : string) (l : list string) :
  StronglySorted le l -> StronglySorted le (insert_sorted x l).
Proof.
  induction 1 as [|y l Hs IH Hy]; simpl.
  - repeat constructor.
  - destruct (String.leb x y) eqn:E.
    + constructor; [now constructor|].
      constructor; [exact E|].
      rewrite Forall_forall in *. intros z Hz. eapply le_trans; [exact E|auto].
    + constructor; [exact IH|].
      assert (Hyx : le y x) by (destruct (le_total x y) as [C|C]; [unfold le in C; congruence|exact C]).
      rewrite Forall_forall in *. intros z Hz.
      apply (Permutation_in _ (insert_sorted_perm x l)) in Hz.
      destruct Hz as [<-|Hz]; auto.
Qed.

Lemma sort_sorted (l : list string) : StronglySorted le (sort l).
Proof.
  induction l as [|x l IH]; simpl; [constructor|]. now apply insert_sorted_sorted.
Qed.

(** A list has one sorted arrangement. *)
Lemma sorted_unique (l1 : list string) :
  forall l2, StronglySorted le l1 -> StronglySorted le l2 ->
             Permutation l1 l2 -> l1 = l2.
Proof.
  induction l1 as [|x l1 IH]; intros l2 S1 S2 P.
  - apply Permutation_nil in P. now subst.
  - destruct l2 as [|y l2]; [apply Permutation_sym, Permutation_nil in P; discriminate|].
    inversion S1 as [|? ? S1' F1]; subst. inversion S2 as [|? ? S2' F2]; subst.
    rewrite Forall_forall in F1, F2.
    assert (x = y).
    { assert (Hx : In x (y :: l2)) by (eapply Permutation_in; [exact P|now left]).
      assert (Hy : In y (x :: l1))
        by (eapply Permutation_in; [apply Permutation_sym; exact P|now left]).
      destruct Hx as [->|Hx]; [reflexivity|].
      destruct Hy as [->|Hy]; [reflexivity|].
      apply le_antisym; auto. }
    subst y. f_equal. apply IH; auto. eapply Permutation_cons_inv; exact P.
Qed.

Lemma sort_permutation_invariant (l1 l2 : list string) :
  Permutation l1 l2 -> sort l1 = sort l2.
Proof.
  intros P. apply sorted_unique; try apply sort_sorted.
  rewrite !sort_perm. exact P.
Qed.

Lemma lookup_In {A} (k : string) (v : A) (l : list (string * A)) :
  NoDup (map fst l) -> (lookup k l = Some v <-> In (k, v) l).
Proof.
  induction l as [|[k' v'] l IH]; simpl; intros N.
  - split; [discriminate|tauto].
  - inversion N as [|? ? Hn N']; subst. destruct (String.eqb_spec k k') as [->|Hne].
    + split.
      * intros [= ->]. now left.
      * intros [[= ->]|H]; [reflexivity|].
        exfalso. apply Hn. change k' with (fst (k', v)). now apply in_map.
    + rewrite (IH N'). split; [tauto|]. intros [[= -> ->]|H]; [congruence|exact H].
Qed.

Lemma lookup_permutation {A} (k : string) (l1 l2 : list (string * A)) :
  NoDup (map fst l1) -> Permutation l1 l2 -> lookup k l1 = lookup k l2.
Proof.
  intros N1 P.
  assert (N2 : NoDup (map fst l2))
    by (eapply Permutation_NoDup; [apply Permutation_map; exact P|exact N1]).
  destruct (lookup k l1) as [v|] eqn:E1.
  - symmetry. apply lookup_In; [exact N2|].
    eapply Permutation_in; [exact P|]. now apply lookup_In.
  - destruct (lookup k l2) as [v|] eqn:E2; [|reflexivity].
    apply lookup_In in E2; [|exact N2].
    apply (Permutation_in _ (Permutation_sym P)) in E2.
    apply lookup_In in E2; [congruence|exact N1].
Qed.

Lemma lookup_map {A B} (f : A -> B) (k : string) (l : list (string * A)) :
  lookup k (map (fun e => (fst e, f (snd e))) l) = option_map f (lookup k l).
Proof.
  induction l as [|[k' v] l IH]; simpl; [reflexivity|].
  destruct (String.eqb k k'); [reflexivity|exact IH].
Qed.

Lemma select_ext (ks : list string) (sp1 sp2 : list (string * string)) (colon : string) :
  (forall k, lookup k sp1 = lookup k sp2) -> select ks sp1 colon = select ks sp2 colon.
Proof.
  intros H. induction ks as [|k ks IH]; simpl; [reflexivity|].
  rewrite H, IH. reflexivity.
Qed.

(** The serialization of an object under an array replacer, as a
    selection from the serialized properties. *)
Lemma serialize_object (ks : list string) (gap indent : string)
    (props : list (string * json)) :
  serialize (Some ks) gap indent (JObj props)
  = wrap "{" "}" gap indent
      (select ks
         (map (fun e => (fst e, serialize (Some ks) gap (indent ++ gap) (snd e))) props)
         (if is_empty_string gap then ":" else ": ")).
Proof.
  simpl. do 2 f_equal.
  induction props as [|[k x] props IH]; simpl; [reflexivity|]. now rewrite IH.
Qed.

Lemma hashInput_permutation (F G : list (string * json)) :
  NoDup (map fst F) -> Permutation F G -> hashInput F = hashInput G.
Proof.
  intros N P. unfold hashInput, stringify_with_keys, keys.
  rewrite (sort_permutation_invariant (map fst F) (map fst G))
    by (apply Permutation_map; exact P).
  rewrite !serialize_object. f_equal. apply select_ext. intros k.
  rewrite !lookup_map. f_equal. now apply lookup_permutation.
Qed.

End FingerprintFacts.

(** C6.  fingerprintFacts (calculateContextHash) is a function of the
    facts record alone, and two records that hold the same entries in a
    different key order receive the same digest: what is hashed is the
    serialization of the record under its sorted key list. *)
Theorem C6_fingerprint_key_order (F G : list (string * Json.json)) :
  NoDup (map fst F) ->
  Permutation F G ->
  TechStack.hashInput F = TechStack.hashInput G
  /\ TechStack.calculateContextHash F = TechStack.calculateContextHash G.
Proof.
  intros N P.
  assert (E : TechStack.hashInput F = TechStack.hashInput G)
    by now apply FingerprintFacts.hashInput_permutation.
  split; [exact E|]. unfold TechStack.calculateContextHash. now rewrite E.
Qed.

Lemma C6_fingerprint_key_order_witness :
  let F := [("react", Json.JBool true); ("nodejs", Json.JBool true);
            ("npm_packages", Json.JArr [Json.JStr "express"])] in
  let G := [("npm_packages", Json.JArr [Json.JStr "express"]);
            ("react", Json.JBool true); ("nodejs", Json.JBool true)] in
  TechStack.hashInput F = TechStack.hashInput G
  /\ TechStack.calculateContextHash F = TechStack.calculateContextHash G.
Proof.
  intros F G. apply (C6_fingerprint_key_order F G).
  - repeat constructor; simpl; intuition discriminate.
  - unfold F, G.
    apply Permutation_sym, (Permutation_cons_app [_; _] []). reflexivity.
Defined.

(** ** Tech-stack detection *)

Module TechStackFacts.
Import JsString Json TechStack.

Definition orelse {A} (later earlier : option A) : option A :=
  match later with
  | Some x => Some x
  | None => earlier
  end.

Definition or_current (o : option ProjectType) (current : ProjectType) : ProjectType :=
  match o with
  | Some t => t
  | None => current
  end.

(** [assigns g o]: whatever the detection so far, the step [g] leaves the
    project type alone ([o = None]) or sets it to [t] ([o = Some t]),
    and [t] is never "other". *)
Definition assigns (g : Detection -> Detection) (o : option ProjectType) : Prop :=
  o <> Some Other /\ forall d, project_type (g d) = or_current o (project_type d).

(** [grows g]: the step [g] never removes a language. *)
Definition grows (g : Detection -> Detection) : Prop :=
  forall d x, has_language x d = true -> has_language x (g d) = true.

(** Case analysis on every test of a step. *)
Ltac break_tests :=
  repeat match goal with
         | |- context [match ?x with _ => _ end] => destruct x
         end.

Lemma assigns_id : assigns (fun d => d) None.
Proof. split; [discriminate|reflexivity]. Qed.

Lemma assigns_compose g h o1 o2 :
  assigns g o1 -> assigns h o2 -> assigns (fun d => h (g d)) (orelse o2 o1).
Proof.
  intros [N1 H1] [N2 H2]. split.
  - destruct o2; simpl; assumption.
  - intros d. rewrite H2, H1. destruct o2; reflexivity.
Qed.

Lemma assigns_when (b : bool) g o :
  assigns g o -> assigns (when b g) (if b then o else None).
Proof. destruct b; [auto|intros _; apply assigns_id]. Qed.

Lemma has_language_set_add x y l :
  existsb (String.eqb x) l = true -> existsb (String.eqb x) (set_add y l) = true.
Proof.
  intros H. unfold set_add. destruct (existsb (String.eqb y) l); [exact H|].
  rewrite existsb_app, H. reflexivity.
Qed.

Lemma has_language_added x l : existsb (String.eqb x) (set_add x l) = true.
Proof.
  unfold set_add. destruct (existsb (String.eqb x) l) eqn:E; [exact E|].
  rewrite existsb_app. simpl. rewrite String.eqb_refl. now rewrite orb_true_r.
Qed.

Lemma grows_when (b : bool) g : grows g -> grows (when b g).
Proof. destruct b; [auto|intros _ d x H; exact H]. Qed.

Ltac grows_by_cases :=
  intros d x H; unfold has_language in *;
  break_tests; simpl; try exact H; now apply has_language_set_add.

Lemma grows_script ext c : grows (detect_script ext c).
Proof. unfold detect_script, when. grows_by_cases. Qed.

Lemma grows_python c : grows (detect_python c).
Proof. unfold detect_python, when. grows_by_cases. Qed.

Lemma grows_package pd : grows (detect_package pd).
Proof. unfold detect_package, when. grows_by_cases. Qed.

Lemma grows_tsconfig v : grows (detect_tsconfig v).
Proof. unfold detect_tsconfig. grows_by_cases. Qed.

Lemma grows_requirements c : grows (detect_requirements c).
Proof. unfold detect_requirements. grows_by_cases. Qed.

Lemma grows_cargo c : grows (detect_cargo c).
Proof. unfold detect_cargo. grows_by_cases. Qed.

Lemma grows_gomod c : grows (detect_gomod c).
Proof. unfold detect_gomod. grows_by_cases. Qed.

Lemma script_adds_language ext c d :
  has_language (if String.eqb ext "ts" || String.eqb ext "tsx"
                then "typescript" else "javascript")
               (detect_script ext c d) = true.
Proof.
  unfold detect_script, when, has_language.
  set (lang := if String.eqb ext "ts" || String.eqb ext "tsx"
               then "typescript" else "javascript").
  break_tests; simpl; apply has_language_added.
Qed.

Lemma detect_script_assigns ext c : exists o, assigns (detect_script ext c) o.
Proof.
  unfold detect_script, when.
  destruct (includes c "@angular/core" || includes c "NgModule");
    [exists (Some WebApp); split; [discriminate|reflexivity]|].
  destruct (includes c "import { createApp }" || includes c ("from " ++ JsonReader.q "vue"));
    [exists (Some WebApp); split; [discriminate|]; intros d; break_tests; reflexivity|].
  destruct (includes c "import React" || includes c ("from " ++ JsonReader.q "react")
            || includes c "from 'react'");
    [exists (Some WebApp)|exists None];
    (split; [discriminate|]; intros d; break_tests; reflexivity).
Qed.

Lemma detect_python_assigns c : exists o, assigns (detect_python c) o.
Proof.
  unfold detect_python, when.
  destruct (includes c "import fastapi" || includes c "from fastapi");
    [exists (Some ApiService); split; [discriminate|reflexivity]|].
  destruct (includes c "import django" || includes c "from django");
    [exists (Some WebApp); split; [discriminate|reflexivity]|].
  destruct (includes c "import flask" || includes c "from flask");
    [exists (Some ApiService)|exists None];
    (split; [discriminate|reflexivity]).
Qed.

Lemma manifest_type_not_other deps : manifest_type deps <> Some Other.
Proof. unfold manifest_type. break_tests; discriminate. Qed.

Lemma detect_package_assigns pd :
  assigns (detect_package pd) (manifest_type (opt_member (Some pd) "dependencies")).
Proof.
  split; [apply manifest_type_not_other|].
  intros d. unfold detect_package.
  destruct (manifest_type (opt_member (Some pd) "dependencies")); [reflexivity|].
  unfold when. simpl or_current. break_tests; reflexivity.
Qed.

Lemma detect_tsconfig_assigns v : assigns (detect_tsconfig v) None.
Proof.
  split; [discriminate|]. intros d. unfold detect_tsconfig.
  break_tests; reflexivity.
Qed.

Lemma detect_requirements_assigns c : exists o, assigns (detect_requirements c) o.
Proof.
  unfold detect_requirements.
  set (deps := filter _ _).
  destruct (existsb (fun dep => includes dep "django") deps);
    [|destruct (existsb (fun dep => includes dep "flask" || includes dep "fastapi") deps)].
  - exists (Some WebApp). split; [discriminate|reflexivity].
  - exists (Some ApiService). split; [discriminate|reflexivity].
  - exists None. split; [discriminate|reflexivity].
Qed.

Lemma detect_cargo_assigns c : exists o, assigns (detect_cargo c) o.
Proof.
  unfold detect_cargo.
  destruct (includes (toLowerCase c) "axum");
    [|destruct (includes (toLowerCase c) "yew")].
  - exists (Some ApiService). split; [discriminate|reflexivity].
  - exists (Some WebApp). split; [discriminate|reflexivity].
  - exists (Some CliTool). split; [discriminate|reflexivity].
Qed.

Lemma detect_gomod_assigns c : exists o, assigns (detect_gomod c) o.
Proof.
  unfold detect_gomod. destruct (includes c "github.com/gin-gonic").
  - exists (Some ApiService). split; [discriminate|reflexivity].
  - exists (Some CliTool). split; [discriminate|reflexivity].
Qed.

Section Signals.

Variable JSON_parse : string -> option json.

(** The project type that the turn of the loop for [file] assigns, if it
    assigns one: read off the code by running the turn on a detection
    whose type is still "other". *)
Definition type_signal (file : FileInput) : option ProjectType :=
  let t := project_type (detect_file JSON_parse initial file) in
  if ProjectType_eqb t Other then None else Some t.

(** The signal of the last file of the list that carries one. *)
Definition last_signal (files : list FileInput) : option ProjectType :=
  fold_left (fun acc file => orelse (type_signal file) acc) files None.

Lemma try_package_assigns c : exists o, assigns (try_package JSON_parse c) o.
Proof.
  unfold try_package.
  destruct (JSON_parse c) as [v|]; [|eexists; apply assigns_id].
  destruct v; try (eexists; apply assigns_id); eexists; apply detect_package_assigns.
Qed.

Lemma try_tsconfig_assigns c : assigns (try_tsconfig JSON_parse c) None.
Proof.
  unfold try_tsconfig.
  destruct (JSON_parse c) as [v|]; [apply detect_tsconfig_assigns|apply assigns_id].
Qed.

Lemma grows_try_package c : grows (try_package JSON_parse c).
Proof.
  unfold try_package. destruct (JSON_parse c) as [v|]; [|intros d x H; exact H].
  destruct v; try (intros d x H; exact H); apply grows_package.
Qed.

Lemma grows_try_tsconfig c : grows (try_tsconfig JSON_parse c).
Proof.
  unfold try_tsconfig.
  destruct (JSON_parse c) as [v|]; [apply grows_tsconfig|intros d x H; exact H].
Qed.

Lemma detect_file_assigns file :
  exists o, assigns (fun d => detect_file JSON_parse d file) o.
Proof.
  destruct (detect_script_assigns (extension (path file)) (content file)) as [o1 A1].
  destruct (detect_python_assigns (content file)) as [o2 A2].
  destruct (try_package_assigns (content file)) as [o3 A3].
  pose proof (try_tsconfig_assigns (content file)) as A4.
  destruct (detect_requirements_assigns (content file)) as [o5 A5].
  destruct (detect_cargo_assigns (content file)) as [o6 A6].
  destruct (detect_gomod_assigns (content file)) as [o7 A7].
  eexists. unfold detect_file.
  eapply (assigns_compose _ (when _ _)); [|apply assigns_when, A7].
  eapply (assigns_compose _ (when _ _)); [|apply assigns_when, A6].
  eapply (assigns_compose _ (when _ _)); [|apply assigns_when, A5].
  eapply (assigns_compose _ (when _ _)); [|apply assigns_when, A4].
  eapply (assigns_compose _ (when _ _)); [|apply assigns_when, A3].
  eapply (assigns_compose (when _ _) (when _ _));
    [apply assigns_when, A1|apply assigns_when, A2].
Qed.

(** A turn of the loop sets the type to the file's signal, or leaves it. *)
Lemma detect_file_type (d : Detection) (file : FileInput) :
  project_type (detect_file JSON_parse d file)
  = or_current (type_signal file) (project_type d).
Proof.
  destruct (detect_file_assigns file) as [o [N H]].
  assert (E : type_signal file = o).
  { unfold type_signal. rewrite H. simpl.
    destruct o as [t|]; simpl; [|reflexivity].
    destruct t; try reflexivity. congruence. }
  rewrite E. apply H.
Qed.

Lemma fold_detect_type (files : list FileInput) :
  forall d acc,
    project_type d = or_current acc Other ->
    project_type (fold_left (detect_file JSON_parse) files d)
    = or_current (fold_left (fun acc file => orelse (type_signal file) acc) files acc)
                 Other.
Proof.
  induction files as [|f files IH]; intros d acc H; simpl; [exact H|].
  apply IH. rewrite detect_file_type, H.
  destruct (type_signal f); reflexivity.
Qed.

Lemma loop_type (files : list FileInput) :
  project_type (fold_left (detect_file JSON_parse) files initial)
  = or_current (last_signal files) Other.
Proof. apply fold_detect_type. reflexivity. Qed.

Lemma type_signal_not_other file : type_signal file <> Some Other.
Proof.
  unfold type_signal.
  destruct (project_type (detect_file JSON_parse initial file)); simpl; discriminate.
Qed.

Lemma last_signal_not_other files : last_signal files <> Some Other.
Proof.
  unfold last_signal.
  assert (G : forall acc, acc <> Some Other ->
            fold_left (fun acc file => orelse (type_signal file) acc) files acc
            <> Some Other).
  { induction files as [|f files IH]; intros acc H; simpl; [exact H|].
    apply IH. pose proof (type_signal_not_other f).
    destruct (type_signal f); simpl; assumption. }
  apply G. discriminate.
Qed.

(** With a signal, the language defaults do not apply. *)
Lemma detect_with_signal (files : list FileInput) (t : ProjectType) :
  last_signal files = Some t -> project_type (detectTechStack JSON_parse files) = t.
Proof.
  intros H. unfold detectTechStack, default_type.
  pose proof (loop_type files) as L. rewrite H in L. simpl in L.
  pose proof (last_signal_not_other files) as N. rewrite H in N.
  rewrite L. destruct t; try (simpl; exact L). now elim N.
Qed.

Lemma last_signal_none (files : list FileInput) :
  (forall f, In f files -> type_signal f = None) -> last_signal files = None.
Proof.
  unfold last_signal. induction files as [|f files IH]; intros H; simpl; [reflexivity|].
  rewrite (H f) by now left. simpl. apply IH. intros g Hg. apply H. now right.
Qed.

(** When every file that carries a signal carries [t], and one does, the
    last signal is [t]. *)
Lemma last_signal_agree (files : list FileInput) (t : ProjectType) :
  (exists f, In f files /\ type_signal f = Some t) ->
  (forall f u, In f files -> type_signal f = Some u -> u = t) ->
  last_signal files = Some t.
Proof.
  unfold last_signal.
  assert (G : forall acc,
            (acc = Some t \/ exists f, In f files /\ type_signal f = Some t) ->
            (forall f u, In f files -> type_signal f = Some u -> u = t) ->
            fold_left (fun acc file => orelse (type_signal file) acc) files acc = Some t).
  { induction files as [|f files IH]; intros acc H A; simpl.
    - destruct H as [H|[f [[] _]]]. exact H.
    - apply IH; [|intros g u Hg; apply A; now right].
      destruct (type_signal f) as [u|] eqn:E; simpl.
      + left. f_equal. eapply A; [now left|exact E].
      + destruct H as [H|[g [[<-|Hg] Eg]]]; [now left|congruence|].
        right. now exists g. }
  intros H A. apply G; [now right|exact A].
Qed.

Lemma grows_detect_file file : grows (fun d => detect_file JSON_parse d file).
Proof.
  intros d x H. unfold detect_file.
  apply grows_when; [apply grows_gomod|].
  apply grows_when; [apply grows_cargo|].
  apply grows_when; [apply grows_requirements|].
  apply grows_when; [apply grows_try_tsconfig|].
  apply grows_when; [apply grows_try_package|].
  apply grows_when; [apply grows_python|].
  apply grows_when; [apply grows_script|]. exact H.
Qed.

Lemma grows_fold files :
  forall d x, has_language x d = true ->
              has_language x (fold_left (detect_file JSON_parse) files d) = true.
Proof.
  induction files as [|f files IH]; intros d x H; simpl; [exact H|].
  apply IH. now apply (grows_detect_file f).
Qed.

(** A source file with a script extension records its language. *)
Lemma script_language file d :
  is_script_ext (extension (path file)) = true ->
  has_language "typescript" (detect_file JSON_parse d file)
  || has_language "javascript" (detect_file JSON_parse d file) = true.
Proof.
  intros E.
  set (lang := if String.eqb (extension (path file)) "ts"
                  || String.eqb (extension (path file)) "tsx"
               then "typescript" else "javascript").
  assert (H : has_language lang (detect_file JSON_parse d file) = true).
  { unfold detect_file.
    apply grows_when; [apply grows_gomod|].
    apply grows_when; [apply grows_cargo|].
    apply grows_when; [apply grows_requirements|].
    apply grows_when; [apply grows_try_tsconfig|].
    apply grows_when; [apply grows_try_package|].
    apply grows_when; [apply grows_python|].
    rewrite E. apply script_adds_language. }
  unfold lang in H. destruct (_ || _) in H; rewrite H; [reflexivity|apply orb_true_r].
Qed.

Lemma some_script_language files :
  (exists f, In f files /\ is_script_ext (extension (path f)) = true) ->
  forall d,
    has_language "typescript" (fold_left (detect_file JSON_parse) files d)
    || has_language "javascript" (fold_left (detect_file JSON_parse) files d) = true.
Proof.
  induction files as [|f files IH]; intros [g [Hg E]] d; [destruct Hg|].
  simpl. destruct Hg as [<-|Hg].
  - pose proof (script_language f d E) as H.
    apply orb_true_iff in H. apply orb_true_iff.
    destruct H as [H|H]; [left|right]; now apply grows_fold.
  - apply IH. now exists g.
Qed.

(** A file set whose only signal is script source is a "cli-tool". *)
Lemma detect_script_only (files : list FileInput) :
  (forall f, In f files -> type_signal f = None) ->
  (exists f, In f files /\ is_script_ext (extension (path f)) = true) ->
  project_type (detectTechStack JSON_parse files) = CliTool.
Proof.
  intros N S. unfold detectTechStack, default_type.
  pose proof (loop_type files) as L. rewrite (last_signal_none files N) in L.
  simpl in L. rewrite L. simpl.
  now rewrite (some_script_language files S initial).
Qed.

End Signals.

End TechStackFacts.

(** Example inputs: a dependency manifest that names a server framework,
    and a TypeScript source that imports React. *)
Definition express_manifest : FileInput :=
  mkFile "package.json"
         ("{" ++ JsonReader.q "dependencies" ++ ":{" ++ JsonReader.q "express" ++ ":"
              ++ JsonReader.q "^4.18.0" ++ "}}").

Definition react_source : FileInput :=
  mkFile "src/App.tsx" "import React from 'react';".

Definition plain_source : FileInput :=
  mkFile "src/index.ts" "export const answer = 42;".

(** C9 as stated does not hold: with the same manifest signal (express
    among the dependencies of package.json), listing the manifest before
    or after a source file that imports React changes the project type. *)
Lemma C9_file_order_changes_type :
  Permutation [express_manifest; react_source] [react_source; express_manifest]
  /\ TechStack.project_type
       (TechStack.detectTechStack JsonReader.parse [express_manifest; react_source])
     = WebApp
  /\ TechStack.project_type
       (TechStack.detectTechStack JsonReader.parse [react_source; express_manifest])
     = ApiService.
Proof.
  split; [apply perm_swap|]. split; vm_compute; reflexivity.
Qed.

(** C9, amended.  detectTechStack assigns the project type file by file,
    in list order, a later file's signal replacing an earlier one's:
    - when some file carries a signal, the type is the signal of the last
      such file, so that any explicit signal (a server framework among the
      manifest's dependencies, say) overrides the language-only defaults;
    - a file set in which no file carries a signal and some file is
      TypeScript or JavaScript source is a "cli-tool";
    - when all the files that carry a signal carry the same one, every
      listing order of the files yields that type. *)
Theorem C9_project_type_resolution
    (JSON_parse : string -> option Json.json) (files : list FileInput) :
  (forall t, TechStackFacts.last_signal JSON_parse files = Some t ->
             TechStack.project_type (TechStack.detectTechStack JSON_parse files) = t)
  /\ ((forall f, In f files -> TechStackFacts.type_signal JSON_parse f = None) ->
      (exists f, In f files
                 /\ TechStack.is_script_ext (TechStack.extension (path f)) = true) ->
      TechStack.project_type (TechStack.detectTechStack JSON_parse files) = CliTool)
  /\ (forall t files',
         Permutation files files' ->
         (exists f, In f files /\ TechStackFacts.type_signal JSON_parse f = Some t) ->
         (forall f u, In f files -> TechStackFacts.type_signal JSON_parse f = Some u ->
                      u = t) ->
         TechStack.project_type (TechStack.detectTechStack JSON_parse files) = t
         /\ TechStack.project_type (TechStack.detectTechStack JSON_parse files') = t).
Proof.
  split; [|split].
  - intros t H. now apply TechStackFacts.detect_with_signal.
  - apply TechStackFacts.detect_script_only.
  - intros t files' P [f [Hf Ef]] A. split.
    + apply TechStackFacts.detect_with_signal, TechStackFacts.last_signal_agree;
        [now exists f|exact A].
    + apply TechStackFacts.detect_with_signal, TechStackFacts.last_signal_agree.
      * exists f. split; [eapply Permutation_in; eassumption|exact Ef].
      * intros g u Hg. apply A. eapply Permutation_in; [apply Permutation_sym|]; eassumption.
Qed.

Lemma C9_project_type_resolution_witness :
  TechStack.project_type
    (TechStack.detectTechStack JsonReader.parse [plain_source; express_manifest])
  = ApiService
  /\ TechStack.project_type (TechStack.detectTechStack JsonReader.parse [plain_source])
     = CliTool
  /\ TechStack.project_type
       (TechStack.detectTechStack JsonReader.parse [express_manifest; plain_source])
     = ApiService.
Proof.
  destruct (C9_project_type_resolution JsonReader.parse [plain_source; express_manifest])
    as (A & _ & C).
  destruct (C9_project_type_resolution JsonReader.parse [plain_source]) as (_ & B & _).
  split; [|split].
  - apply A. vm_compute. reflexivity.
  - apply B.
    + intros f [<-|[]]. vm_compute. reflexivity.
    + exists plain_source. split; [now left|vm_compute; reflexivity].
  - apply (C ApiService [express_manifest; plain_source]).
    + apply perm_swap.
    + exists express_manifest. split; [right; now left|vm_compute; reflexivity].
    + intros f u [<-|[<-|[]]]; vm_compute; congruence.
Defined.

(** ** The store and the transaction callback *)

Module StoreFacts.
Import JsString Json Store Connection.
Local Open Scope tx_scope.

Lemma union_no_rows (t : Tables) : union t no_rows = t.
Proof. destruct t. unfold union. simpl. now rewrite !app_nil_r. Qed.

Lemma check_none (b : bool) (c : string) : check b c = None -> b = true.
Proof. destruct b; [reflexivity|discriminate]. Qed.

Lemma first_error_none (l : list (option Error)) :
  first_error l = None -> Forall (fun x => x = None) l.
Proof.
  induction l as [|[e|] l IH]; simpl; intros H; [constructor|discriminate|].
  constructor; [reflexivity|auto].
Qed.

Lemma bind_inv {A B} (m : M A) (k : A -> M B) (tx tx' : Tx) (r : Result B) :
  bind m k tx = (tx', r) ->
  (exists e, m tx = (tx', Err e) /\ r = Err e)
  \/ (exists tx1 a, m tx = (tx1, Ok a) /\ k a tx1 = (tx', r)).
Proof.
  unfold bind. destruct (m tx) as [tx1 [a|e]]; intros H.
  - right. now exists tx1, a.
  - left. exists e. now inversion H.
Qed.

Lemma pool_write_inv v f (tx tx' : Tx) (r : Result unit) :
  pool_write v f tx = (tx', r) ->
  (r = Ok tt /\ v (pool tx) = None /\ tx' = mkTx (f (pool tx)) (own tx) (ctr tx))
  \/ (exists e, r = Err e /\ v (pool tx) = Some e /\ tx' = tx).
Proof.
  unfold pool_write. destruct (v (pool tx)) as [e|]; intros [= <- <-].
  - right. now exists e.
  - now left.
Qed.

Lemma client_write_inv v f (tx tx' : Tx) (r : Result unit) :
  client_write v f tx = (tx', r) ->
  (r = Ok tt /\ v (view tx) = None /\ tx' = mkTx (pool tx) (f (own tx)) (ctr tx))
  \/ (exists e, r = Err e /\ v (view tx) = Some e /\ tx' = tx).
Proof.
  unfold client_write. destruct (v (view tx)) as [e|]; intros [= <- <-].
  - right. now exists e.
  - now left.
Qed.

(** What a statement leaves alone. *)
Definition same_pool (tx tx' : Tx) : Prop := pool tx' = pool tx.

(** The session, file and conversation rows the client has written. *)
Definition same_own_rows (tx tx' : Tx) : Prop :=
  sessions (own tx') = sessions (own tx)
  /\ files (own tx') = files (own tx)
  /\ conversations (own tx') = conversations (own tx).

(** The context and snapshot rows the client has written. *)
Definition same_own_contexts (tx tx' : Tx) : Prop :=
  project_contexts (own tx') = project_contexts (own tx)
  /\ project_context_snapshots (own tx') = project_context_snapshots (own tx).

(** The committed session, file and conversation rows. *)
Definition same_core (tx tx' : Tx) : Prop :=
  sessions (pool tx') = sessions (pool tx)
  /\ files (pool tx') = files (pool tx)
  /\ conversations (pool tx') = conversations (pool tx).

Lemma same_core_refl tx : same_core tx tx.
Proof. now repeat split. Qed.

Lemma same_core_trans a b c : same_core a b -> same_core b c -> same_core a c.
Proof. unfold same_core. intuition congruence. Qed.

Lemma same_pool_core a b : same_pool a b -> same_core a b.
Proof. unfold same_pool, same_core. intros ->. now repeat split. Qed.

(** [keeps R m]: every run of [m], failed or not, relates the state
    before to the state after by [R]. *)
Definition keeps {A} (R : Tx -> Tx -> Prop) (m : M A) : Prop :=
  forall tx tx' r, m tx = (tx', r) -> R tx tx'.

Section Keeps.

Variable R : Tx -> Tx -> Prop.
Hypothesis R_refl : forall tx, R tx tx.
Hypothesis R_trans : forall a b c, R a b -> R b c -> R a c.

Lemma keeps_ret {A} (a : A) : keeps R (ret a).
Proof. intros tx tx' r [= <- _]. apply R_refl. Qed.

Lemma keeps_throw {A} (e : Error) : keeps R (@throw A e).
Proof. intros tx tx' r [= <- _]. apply R_refl. Qed.

Lemma keeps_bind {A B} (m : M A) (k : A -> M B) :
  keeps R m -> (forall a, keeps R (k a)) -> keeps R (bind m k).
Proof.
  intros Hm Hk tx tx' r H. apply bind_inv in H.
  destruct H as [[e [H _]]|[tx1 [a [H1 H2]]]].
  - eapply Hm; eassumption.
  - eapply R_trans; [eapply Hm|eapply Hk]; eassumption.
Qed.

Lemma keeps_for_each {A} (f : A -> M unit) (l : list A) :
  (forall x, keeps R (f x)) -> keeps R (for_each f l).
Proof.
  intros Hf. induction l as [|x l IH]; simpl.
  - apply keeps_ret.
  - apply keeps_bind; [apply Hf|intros _; exact IH].
Qed.

Lemma keeps_pool_read {A} (f : Tables -> A) : keeps R (pool_read f).
Proof. intros tx tx' r [= <- _]. apply R_refl. Qed.

Lemma keeps_client_read {A} (f : Tables -> A) : keeps R (client_read f).
Proof. intros tx tx' r [= <- _]. apply R_refl. Qed.

End Keeps.

Lemma keeps_fresh (R : Tx -> Tx -> Prop) :
  (forall tx, R tx (mkTx (pool tx) (own tx) (S (ctr tx)))) -> keeps R fresh.
Proof. intros H tx tx' r [= <- _]. apply H. Qed.

Lemma keeps_pool_write (R : Tx -> Tx -> Prop) v f :
  (forall tx, R tx tx) ->
  (forall tx, R tx (mkTx (f (pool tx)) (own tx) (ctr tx))) -> keeps R (pool_write v f).
Proof.
  intros H0 H tx tx' r E. apply pool_write_inv in E.
  destruct E as [(_ & _ & ->)|(e & _ & _ & ->)]; auto.
Qed.

Lemma keeps_client_write (R : Tx -> Tx -> Prop) v f :
  (forall tx, R tx tx) ->
  (forall tx, R tx (mkTx (pool tx) (f (own tx)) (ctr tx))) -> keeps R (client_write v f).
Proof.
  intros H0 H tx tx' r E. apply client_write_inv in E.
  destruct E as [(_ & _ & ->)|(e & _ & _ & ->)]; auto.
Qed.

Lemma same_pool_refl tx : same_pool tx tx.
Proof. reflexivity. Qed.

Lemma same_pool_trans a b c : same_pool a b -> same_pool b c -> same_pool a c.
Proof. unfold same_pool. congruence. Qed.

Lemma same_own_rows_refl tx : same_own_rows tx tx.
Proof. now repeat split. Qed.

Lemma same_own_rows_trans a b c : same_own_rows a b -> same_own_rows b c -> same_own_rows a c.
Proof. unfold same_own_rows. intuition congruence. Qed.

Lemma same_own_contexts_refl tx : same_own_contexts tx tx.
Proof. now repeat split. Qed.

Lemma same_own_contexts_trans a b c :
  same_own_contexts a b -> same_own_contexts b c -> same_own_contexts a c.
Proof. unfold same_own_contexts. intuition congruence. Qed.

Definition same_own (tx tx' : Tx) : Prop := own tx' = own tx.

Lemma same_own_refl tx : same_own tx tx.
Proof. reflexivity. Qed.

Lemma same_own_trans a b c : same_own a b -> same_own b c -> same_own a c.
Proof. unfold same_own. congruence. Qed.

End StoreFacts.

(** ** What the statements of a save touch *)

Module FrameFacts.
Import JsString Json Store Connection ProjectManager SessionManager StoreFacts.
Local Open Scope tx_scope.

Ltac solve_rel :=
  intros; unfold same_pool, same_own_rows, same_own_contexts, same_core, same_own;
  simpl; repeat split; reflexivity.

Ltac keeps_go refl trans :=
  repeat (intros; first
    [ apply (keeps_ret _ refl)
    | apply (keeps_throw _ refl)
    | apply (keeps_pool_read _ refl)
    | apply (keeps_client_read _ refl)
    | apply (keeps_for_each _ refl trans)
    | apply (keeps_bind _ trans)
    | apply keeps_fresh; solve_rel
    | apply keeps_pool_write; solve_rel
    | apply keeps_client_write; solve_rel
    | match goal with |- keeps _ (match ?x with _ => _ end) => destruct x end ]).

(** The client never writes to what is committed. *)
Lemma trigger_keeps_pool NEW : keeps same_pool (detect_tech_stack_changes NEW).
Proof.
  unfold detect_tech_stack_changes, bootstrap_snapshot.
  keeps_go same_pool_refl same_pool_trans.
Qed.

Lemma insert_session_keeps_pool u n p v md sn t :
  keeps same_pool (insert_session u n p v md sn t).
Proof.
  unfold insert_session.
  apply (keeps_bind _ same_pool_trans); [apply keeps_fresh; solve_rel|intros id].
  apply (keeps_bind _ same_pool_trans); [apply trigger_keeps_pool|intros row].
  keeps_go same_pool_refl same_pool_trans.
Qed.

Lemma insert_file_keeps_pool sid p c h n : keeps same_pool (insert_file sid p c h n).
Proof. unfold insert_file. keeps_go same_pool_refl same_pool_trans. Qed.

Lemma insert_conversation_keeps_pool sid r c t :
  keeps same_pool (insert_conversation sid r c t).
Proof. unfold insert_conversation. keeps_go same_pool_refl same_pool_trans. Qed.

(** The trigger writes contexts and snapshots only. *)
Lemma trigger_keeps_own_rows NEW : keeps same_own_rows (detect_tech_stack_changes NEW).
Proof.
  unfold detect_tech_stack_changes, bootstrap_snapshot.
  keeps_go same_own_rows_refl same_own_rows_trans.
Qed.

Lemma insert_file_keeps_own_contexts sid p c h n :
  keeps same_own_contexts (insert_file sid p c h n).
Proof. unfold insert_file. keeps_go same_own_contexts_refl same_own_contexts_trans. Qed.

Lemma insert_conversation_keeps_own_contexts sid r c t :
  keeps same_own_contexts (insert_conversation sid r c t).
Proof.
  unfold insert_conversation. keeps_go same_own_contexts_refl same_own_contexts_trans.
Qed.

Section WithParser.

Variable JSON_parse : string -> option json.

(** The ProjectManager never writes through the client. *)
Lemma createOrUpdate_keeps_own u p files desc :
  keeps same_own (createOrUpdateProjectContext JSON_parse u p files desc).
Proof.
  unfold createOrUpdateProjectContext. keeps_go same_own_refl same_own_trans.
Qed.

Lemma createSnapshot_keeps_own ctx files reason ts :
  keeps same_own (createSnapshot JSON_parse ctx files reason ts).
Proof. unfold createSnapshot. keeps_go same_own_refl same_own_trans. Qed.

Lemma resolve_context_keeps_own input u files ts :
  keeps same_own (resolve_context JSON_parse input u files ts).
Proof.
  unfold resolve_context, getProjectContext.
  apply (keeps_bind _ same_own_trans); [apply (keeps_pool_read _ same_own_refl)|intros e].
  apply (keeps_bind _ same_own_trans); [apply createOrUpdate_keeps_own|intros pc].
  apply (keeps_bind _ same_own_trans); [apply createSnapshot_keeps_own|intros sn].
  apply (keeps_ret _ same_own_refl).
Qed.

(** And it writes contexts and snapshots only. *)
Lemma createOrUpdate_keeps_core u p files desc :
  keeps same_core (createOrUpdateProjectContext JSON_parse u p files desc).
Proof.
  unfold createOrUpdateProjectContext. keeps_go same_core_refl same_core_trans.
Qed.

Lemma createSnapshot_keeps_core ctx files reason ts :
  keeps same_core (createSnapshot JSON_parse ctx files reason ts).
Proof. unfold createSnapshot. keeps_go same_core_refl same_core_trans. Qed.

Lemma resolve_context_keeps_core input u files ts :
  keeps same_core (resolve_context JSON_parse input u files ts).
Proof.
  unfold resolve_context, getProjectContext.
  apply (keeps_bind _ same_core_trans); [apply (keeps_pool_read _ same_core_refl)|intros e].
  apply (keeps_bind _ same_core_trans); [apply createOrUpdate_keeps_core|intros pc].
  apply (keeps_bind _ same_core_trans); [apply createSnapshot_keeps_core|intros sn].
  apply (keeps_ret _ same_core_refl).
Qed.

Lemma persist_session_keeps_pool input u clock files step1 :
  keeps same_pool (persist_session input u clock files step1).
Proof.
  unfold persist_session. destruct step1 as [[pc reason] sid].
  apply (keeps_bind _ same_pool_trans); [apply (keeps_client_read _ same_pool_refl)|intros mv].
  apply (keeps_bind _ same_pool_trans); [apply insert_session_keeps_pool|intros row].
  apply (keeps_bind _ same_pool_trans);
    [apply (keeps_for_each _ same_pool_refl same_pool_trans); intros f;
     apply insert_file_keeps_pool|intros _].
  apply (keeps_bind _ same_pool_trans);
    [apply (keeps_for_each _ same_pool_refl same_pool_trans); intros f;
     apply insert_conversation_keeps_pool|intros _].
  apply (keeps_ret _ same_pool_refl).
Qed.

(** The whole callback leaves the committed session, file and
    conversation rows as they were. *)
Lemma save_callback_keeps_core input userId clock :
  keeps same_core (save_callback JSON_parse input userId clock).
Proof.
  unfold save_callback.
  apply (keeps_bind _ same_core_trans).
  - destruct userId as [u|]; [|apply (keeps_ret _ same_core_refl)].
    destruct (truthy_string (Some u) && _);
      [apply resolve_context_keeps_core|apply (keeps_ret _ same_core_refl)].
  - intros step1. destruct userId as [u|]; [|apply (keeps_throw _ same_core_refl)].
    destruct (String.eqb u ""); [apply (keeps_throw _ same_core_refl)|].
    intros tx tx' r H. apply same_pool_core.
    eapply persist_session_keeps_pool; eassumption.
Qed.

(** A save that fails leaves no session, file or conversation row. *)
Lemma failed_save_leaves_no_session_row input userId clock db db' e :
  saveSession JSON_parse input userId clock db = (db', Err e) ->
  sessions (tables db') = sessions (tables db)
  /\ files (tables db') = files (tables db)
  /\ conversations (tables db') = conversations (tables db).
Proof.
  unfold saveSession, transaction.
  destruct (save_callback JSON_parse input userId clock
              (mkTx (tables db) no_rows (next_id db))) as [tx r] eqn:E.
  apply save_callback_keeps_core in E.
  destruct r as [a|e']; intros H; inversion H; subst. exact E.
Qed.

End WithParser.

End FrameFacts.

(** ** The effect of a successful save, statement by statement *)

Module SaveFacts.
Import JsString Json Store Connection TechStack ProjectManager SessionManager.
Import StoreFacts FrameFacts.
Local Open Scope tx_scope.

Lemma bind_ok {A B} (m : M A) (k : A -> M B) (tx tx' : Tx) (b : B) :
  bind m k tx = (tx', Ok b) ->
  exists tx1 a, m tx = (tx1, Ok a) /\ k a tx1 = (tx', Ok b).
Proof.
  intros H. apply bind_inv in H.
  destruct H as [[e [_ H]]|H]; [discriminate|exact H].
Qed.

Lemma pool_write_ok v f (tx tx' : Tx) (u : unit) :
  pool_write v f tx = (tx', Ok u) ->
  v (pool tx) = None /\ tx' = mkTx (f (pool tx)) (own tx) (ctr tx).
Proof.
  intros H. apply pool_write_inv in H.
  destruct H as [(_ & H1 & H2)|(e & H & _)]; [now split|discriminate].
Qed.

Lemma client_write_ok v f (tx tx' : Tx) (u : unit) :
  client_write v f tx = (tx', Ok u) ->
  v (view tx) = None /\ tx' = mkTx (pool tx) (f (own tx)) (ctr tx).
Proof.
  intros H. apply client_write_inv in H.
  destruct H as [(_ & H1 & H2)|(e & H & _)]; [now split|discriminate].
Qed.

Lemma active_is_same_project u p c : active_context u p c = true -> same_project u p c = true.
Proof.
  unfold active_context, same_project. intros H.
  apply andb_true_iff in H. tauto.
Qed.

Lemma max_of_ge (l : list Z) (x m : Z) : In x l -> max_of l = Some m -> (x <= m)%Z.
Proof.
  destruct l as [|y l]; [intros []|]. simpl. intros H [= <-].
  assert (G : forall l a, (a <= fold_left Z.max l a)%Z).
  { induction l0 as [|z l0 IH]; intros a; simpl; [lia|].
    specialize (IH (Z.max a z)). lia. }
  assert (G2 : forall l a, In x l -> (x <= fold_left Z.max l a)%Z).
  { induction l0 as [|z l0 IH]; intros a; simpl; [intros []|].
    intros [->|Hx]; [|now apply IH].
    specialize (G l0 (Z.max a x)). lia. }
  destruct H as [->|H]; [apply G|now apply G2].
Qed.

Lemma max_snapshot_version_ge (t : Tables) (snap : SnapshotRow) :
  In snap (project_context_snapshots t) ->
  (ps_snapshot_version snap <= max_snapshot_version t (ps_project_context_id snap))%Z.
Proof.
  intros H. unfold max_snapshot_version.
  set (l := map ps_snapshot_version _).
  assert (Hin : In (ps_snapshot_version snap) l).
  { unfold l. apply in_map, filter_In. split; [exact H|apply Nat.eqb_refl]. }
  destruct (max_of l) as [m|] eqn:E.
  - eapply max_of_ge; eassumption.
  - destruct l; [destruct Hin|discriminate].
Qed.

Section WithParser.

Variable JSON_parse : string -> option json.

Lemma context_row_same_project id u p files desc :
  same_project u p (context_row JSON_parse id u p files desc) = true.
Proof. unfold same_project. simpl. now rewrite !String.eqb_refl. Qed.

Lemma context_row_active id u p files desc :
  active_context u p (context_row JSON_parse id u p files desc) = true.
Proof. unfold active_context. simpl. now rewrite !String.eqb_refl. Qed.

Lemma find_active_after_update u p files desc (l : list ProjectContextRow) c :
  find (same_project u p) l = Some c ->
  find (active_context u p) (update_contexts JSON_parse u p files desc l)
  = Some (context_row JSON_parse (pc_id c) u p files desc).
Proof.
  induction l as [|h l IH]; simpl; [discriminate|].
  destruct (same_project u p h) eqn:E.
  - intros [= ->]. now rewrite context_row_active.
  - intros H. destruct (active_context u p h) eqn:A.
    + apply active_is_same_project in A. congruence.
    + now apply IH.
Qed.

Lemma find_active_after_insert u p (l : list ProjectContextRow) row :
  find (same_project u p) l = None ->
  active_context u p row = true ->
  find (active_context u p) (l ++ [row]) = Some row.
Proof.
  intros H A. induction l as [|h l IH]; simpl in *; [now rewrite A|].
  destruct (same_project u p h) eqn:E; [discriminate|].
  destruct (active_context u p h) eqn:A'.
  - apply active_is_same_project in A'. congruence.
  - now apply IH.
Qed.

(** createOrUpdateProjectContext, when it returns: the row it returns is
    afterwards the active context of (user, project), it carries the
    fingerprint of the detected facts, and no snapshot was touched. *)
Lemma createOrUpdate_ok u p files desc tx tx' pc :
  createOrUpdateProjectContext JSON_parse u p files desc tx = (tx', Ok pc) ->
  find (active_context u p) (project_contexts (pool tx')) = Some pc
  /\ project_context_snapshots (pool tx') = project_context_snapshots (pool tx)
  /\ pc_context_hash pc
     = Some (calculateContextHash (tech_stack (detectTechStack JSON_parse files))).
Proof.
  unfold createOrUpdateProjectContext. intros H.
  apply bind_ok in H. destruct H as (tx1 & existing & H1 & H2).
  unfold pool_read in H1. injection H1 as <- <-.
  destruct (find (same_project u p) (project_contexts (pool tx))) as [c|] eqn:F.
  - apply bind_ok in H2. destruct H2 as (tx2 & [] & W & R).
    apply pool_write_ok in W. destruct W as [_ ->].
    injection R as <- <-. simpl.
    split; [now apply find_active_after_update|]. split; reflexivity.
  - apply bind_ok in H2. destruct H2 as (tx2 & id & Fr & H2).
    injection Fr as <- <-.
    apply bind_ok in H2. destruct H2 as (tx3 & [] & W & R).
    apply pool_write_ok in W. destruct W as [_ ->].
    injection R as <- <-. simpl.
    split; [apply find_active_after_insert; [exact F|apply context_row_active]|].
    split; reflexivity.
Qed.

(** createSnapshot, when it returns: one snapshot row more, the one it
    returns, with the reason it was given and a positive version. *)
Lemma createSnapshot_ok ctx files reason ts tx tx' snap :
  createSnapshot JSON_parse ctx files reason ts tx = (tx', Ok snap) ->
  project_context_snapshots (pool tx') = (project_context_snapshots (pool tx) ++ [snap])%list
  /\ project_contexts (pool tx') = project_contexts (pool tx)
  /\ ps_project_context_id snap = ctx
  /\ ps_snapshot_reason snap = reason
  /\ ps_snapshot_version snap = (max_snapshot_version (pool tx) ctx + 1)%Z
  /\ (0 < ps_snapshot_version snap)%Z.
Proof.
  unfold createSnapshot. intros H.
  apply bind_ok in H. destruct H as (tx1 & mv & H1 & H2).
  unfold pool_read in H1. injection H1 as <- <-.
  apply bind_ok in H2. destruct H2 as (tx2 & id & Fr & H2).
  injection Fr as <- <-.
  apply bind_ok in H2. destruct H2 as (tx3 & [] & W & R).
  apply pool_write_ok in W. destruct W as [V ->].
  injection R as <- <-. simpl.
  repeat split; try reflexivity.
  simpl in V. unfold snapshot_violation in V. apply first_error_none in V.
  inversion V as [|? ? _ V1]; subst. inversion V1 as [|? ? _ V2]; subst.
  inversion V2 as [|? ? P _]; subst. apply check_none in P.
  now apply Z.ltb_lt in P.
Qed.

(** The reason that step 1 computes from the active context found before
    the save. *)
Definition reason_for (existing : option ProjectContextRow) (currentContextHash : string)
  : SnapshotReason :=
  match existing with
  | Some c =>
      match pc_context_hash c with
      | Some h => if String.eqb h currentContextHash then Auto else TechChange
      | None => TechChange
      end
  | None => Auto
  end.

(** Step 1, when it returns. *)
Lemma resolve_context_ok input u files ts tx tx' opc reason osid :
  resolve_context JSON_parse input u files ts tx = (tx', Ok (opc, reason, osid)) ->
  exists pc snap,
    opc = Some pc /\ osid = Some (ps_id snap)
    /\ own tx' = own tx
    /\ project_context_snapshots (pool tx')
       = (project_context_snapshots (pool tx) ++ [snap])%list
    /\ find (active_context u (SaveContextInput.project_name input))
            (project_contexts (pool tx')) = Some pc
    /\ ps_project_context_id snap = pc_id pc
    /\ ps_snapshot_reason snap = reason
    /\ (0 < ps_snapshot_version snap)%Z
    /\ reason
       = reason_for
           (find (active_context u (SaveContextInput.project_name input))
                 (project_contexts (pool tx)))
           (calculateContextHash (tech_stack (detectTechStack JSON_parse files))).
Proof.
  intros H.
  assert (O : own tx' = own tx) by (eapply resolve_context_keeps_own; exact H).
  unfold resolve_context in H.
  apply bind_ok in H. destruct H as (tx1 & existing & H1 & H2).
  unfold getProjectContext, pool_read in H1. injection H1 as <- <-.
  apply bind_ok in H2. destruct H2 as (tx2 & pc & C & H2).
  apply bind_ok in H2. destruct H2 as (tx3 & snap & S & R).
  injection R as <- <- <- <-.
  apply createOrUpdate_ok in C. destruct C as (C1 & C2 & C3).
  apply createSnapshot_ok in S. destruct S as (S1 & S2 & S3 & S4 & S5 & S6).
  exists pc, snap.
  split; [reflexivity|]. split; [reflexivity|]. split; [exact O|].
  split; [now rewrite S1, C2|]. split; [now rewrite S2|].
  split; [exact S3|]. split; [exact S4|]. split; [exact S6|].
  unfold reason_for.
  destruct (find _ (project_contexts (pool tx))) as [c|]; [|reflexivity].
  destruct (pc_context_hash c); reflexivity.
Qed.

End WithParser.

End SaveFacts.

(** ** The rows that a save writes through the client *)

Module PersistFacts.
Import JsString Json Store Connection TechStack ProjectManager SessionManager.
Import StoreFacts FrameFacts SaveFacts.
Local Open Scope tx_scope.

(** Two session rows that differ at most in snapshot_id. *)
Definition same_but_snapshot (a b : SessionRow) : Prop :=
  s_id a = s_id b /\ s_user_id a = s_user_id b /\ s_name a = s_name b
  /\ s_project_name a = s_project_name b /\ s_version a = s_version b
  /\ s_metadata a = s_metadata b /\ s_created_at a = s_created_at b
  /\ s_updated_at a = s_updated_at b.

Lemma bootstrap_fields ctx b NEW tx tx' row :
  bootstrap_snapshot ctx b NEW tx = (tx', Ok row) -> same_but_snapshot row NEW.
Proof.
  unfold bootstrap_snapshot. intros H.
  apply bind_ok in H. destruct H as (tx1 & v & _ & H).
  destruct (b || (v =? 0)%Z).
  - apply bind_ok in H. destruct H as (tx2 & id & _ & H).
    apply bind_ok in H. destruct H as (tx3 & [] & _ & H).
    injection H as _ <-. repeat split.
  - injection H as _ <-. repeat split.
Qed.

Lemma trigger_fields NEW tx tx' row :
  detect_tech_stack_changes NEW tx = (tx', Ok row) -> same_but_snapshot row NEW.
Proof.
  unfold detect_tech_stack_changes. intros H.
  apply bind_ok in H. destruct H as (tx1 & current & _ & H).
  destruct current as [c|].
  - eapply bootstrap_fields; exact H.
  - apply bind_ok in H. destruct H as (tx2 & id & _ & H).
    apply bind_ok in H. destruct H as (tx3 & [] & _ & H).
    eapply bootstrap_fields; exact H.
Qed.

(** With an active context of (user, project) that already has a
    snapshot, the trigger does nothing. *)
Lemma trigger_noop NEW tx pc :
  find (active_context (s_user_id NEW) (s_project_name NEW))
       (project_contexts (view tx)) = Some pc ->
  max_snapshot_version (view tx) (pc_id pc) <> 0%Z ->
  detect_tech_stack_changes NEW tx = (tx, Ok NEW).
Proof.
  intros F V. unfold detect_tech_stack_changes, bind, client_read. rewrite F.
  unfold bootstrap_snapshot, bind, client_read. simpl orb.
  destruct (max_snapshot_version (view tx) (pc_id pc) =? 0)%Z eqn:E;
    [apply Z.eqb_eq in E; contradiction|reflexivity].
Qed.

(** The session insert, when it succeeds: the columns of the new row, and
    the checks it passed. *)
Lemma insert_session_ok u n p v md sn t tx tx' row :
  insert_session u n p v md sn t tx = (tx', Ok row) ->
  same_but_snapshot row (mkSession (ctr tx) u n p v md sn t t)
  /\ sessions (own tx') = (sessions (own tx) ++ [row])%list
  /\ files (own tx') = files (own tx)
  /\ conversations (own tx') = conversations (own tx)
  /\ sql_blank p = false.
Proof.
  unfold insert_session. intros H.
  apply bind_ok in H. destruct H as (tx1 & id & Fr & H).
  injection Fr as <- <-.
  apply bind_ok in H. destruct H as (tx2 & row' & T & H).
  apply bind_ok in H. destruct H as (tx3 & [] & W & R).
  injection R as <- <-.
  pose proof (trigger_fields _ _ _ _ T) as Fl.
  pose proof (trigger_keeps_own_rows _ _ _ _ T) as (O1 & O2 & O3). simpl in O1, O2, O3.
  apply client_write_ok in W. destruct W as [V ->]. simpl.
  split; [exact Fl|]. split; [now rewrite O1|]. split; [exact O2|]. split; [exact O3|].
  unfold session_violation in V. apply first_error_none in V.
  do 4 (inversion V as [|? ? _ V']; subst; clear V; rename V' into V).
  inversion V as [|? ? P _]; subst. apply check_none in P.
  destruct Fl as (_ & _ & _ & Fp & _). simpl in Fp. rewrite Fp in P.
  now apply negb_true_iff in P.
Qed.

Lemma insert_session_noop u n p v md sn t tx tx' row pc :
  find (active_context u p) (project_contexts (view tx)) = Some pc ->
  max_snapshot_version (view tx) (pc_id pc) <> 0%Z ->
  insert_session u n p v md sn t tx = (tx', Ok row) ->
  row = mkSession (ctr tx) u n p v md sn t t
  /\ tx' = mkTx (pool tx) (add_session row (own tx)) (S (ctr tx)).
Proof.
  intros F V. unfold insert_session. intros H.
  apply bind_ok in H. destruct H as (tx1 & id & Fr & H).
  injection Fr as <- <-.
  apply bind_ok in H. destruct H as (tx2 & row' & T & H).
  rewrite (trigger_noop _ _ pc) in T; [|exact F|exact V].
  injection T as <- <-.
  apply bind_ok in H. destruct H as (tx3 & [] & W & R).
  injection R as <- <-.
  apply client_write_ok in W. destruct W as [_ ->]. now split.
Qed.

(** The rows that the loop over the files inserts. *)
Definition file_rows (sessionId first : Id) (files : list FileInput) : list FileRow :=
  map (fun e => mkFileRow (fst e) sessionId (path (snd e)) (content (snd e))
                          (calculateContentHash (content (snd e)))
                          (line_count (content (snd e))))
      (combine (seq first (List.length files)) files).

Definition with_files (rows : list FileRow) (t : Tables) : Tables :=
  mkTables (sessions t) (files t ++ rows) (conversations t)
           (project_contexts t) (project_context_snapshots t).

Lemma tx_eta tx : mkTx (pool tx) (own tx) (ctr tx) = tx.
Proof. now destruct tx. Qed.

Lemma insert_files_ok sessionId (l : list FileInput) :
  forall tx tx' u,
    for_each (fun file => insert_file sessionId (path file) (content file)
                                      (calculateContentHash (content file))
                                      (line_count (content file))) l tx = (tx', Ok u) ->
    tx' = mkTx (pool tx) (with_files (file_rows sessionId (ctr tx) l) (own tx))
               (ctr tx + List.length l).
Proof.
  induction l as [|f l IH]; intros tx tx' u H.
  - injection H as <-. unfold with_files, file_rows. simpl.
    rewrite app_nil_r, Nat.add_0_r. destruct tx as [p [] c]. reflexivity.
  - simpl in H. apply bind_ok in H. destruct H as (tx1 & [] & I & H).
    unfold insert_file in I. apply bind_ok in I. destruct I as (tx2 & id & Fr & W).
    injection Fr as <- <-. apply client_write_ok in W. destruct W as [_ ->].
    apply IH in H. subst tx'. simpl. unfold with_files, file_rows. simpl.
    rewrite <- app_assoc. simpl. f_equal. lia.
Qed.

(** The rows that the loop over the conversation inserts. *)
Definition conversation_rows (sessionId first : Id) (now : Time) (n : nat)
    (ims : list (nat * Message)) : list ConversationRow :=
  map (fun e => mkConversation (fst e) sessionId (role (snd (snd e))) (text (snd (snd e)))
                               0 (now - (Z.of_nat n - Z.of_nat (fst (snd e))))%Z)
      (combine (seq first (List.length ims)) ims).

Definition with_conversations (rows : list ConversationRow) (t : Tables) : Tables :=
  mkTables (sessions t) (files t) (conversations t ++ rows)
           (project_contexts t) (project_context_snapshots t).

Lemma insert_conversations_ok sessionId now n (l : list (nat * Message)) :
  forall tx tx' u,
    for_each (fun im => insert_conversation sessionId (role (snd im)) (text (snd im))
                          (now - (Z.of_nat n - Z.of_nat (fst im)))%Z) l tx = (tx', Ok u) ->
    tx' = mkTx (pool tx)
               (with_conversations (conversation_rows sessionId (ctr tx) now n l) (own tx))
               (ctr tx + List.length l).
Proof.
  induction l as [|f l IH]; intros tx tx' u H.
  - injection H as <-. unfold with_conversations, conversation_rows. simpl.
    rewrite app_nil_r, Nat.add_0_r. destruct tx as [p [] c]. reflexivity.
  - simpl in H. apply bind_ok in H. destruct H as (tx1 & [] & I & H).
    unfold insert_conversation in I. apply bind_ok in I. destruct I as (tx2 & id & Fr & W).
    injection Fr as <- <-. apply client_write_ok in W. destruct W as [_ ->].
    apply IH in H. subst tx'. simpl. unfold with_conversations, conversation_rows. simpl.
    rewrite <- app_assoc. simpl. f_equal. lia.
Qed.

(** The version that step 2 computes. *)
Definition next_version (t : Tables) (u name project : string) : Z :=
  (match max_version t u name project with Some v => v | None => 0 end + 1)%Z.

(** Steps 2 to 5, when they succeed after a step 1 that has left an
    active context with a snapshot: the client has written exactly one
    session row, one file row per file and one conversation row per
    message. *)
Lemma persist_session_ok input u clock fl pc reason sid tx tx' out :
  own tx = no_rows ->
  find (active_context u (SaveContextInput.project_name input))
       (project_contexts (pool tx)) = Some pc ->
  max_snapshot_version (pool tx) (pc_id pc) <> 0%Z ->
  persist_session input u clock fl (Some pc, reason, Some sid) tx = (tx', Ok out) ->
  let row := mkSession (ctr tx) u (SaveContextInput.session_name input)
               (SaveContextInput.project_name input)
               (next_version (pool tx) u (SaveContextInput.session_name input)
                             (SaveContextInput.project_name input))
               (session_metadata (SaveContextInput.metadata input) (Some pc) reason
                                 (Some sid) (filesWereSynthetic input))
               (Some sid) (now clock) (now clock) in
  pool tx' = pool tx
  /\ own tx'
     = mkTables [row] (file_rows (ctr tx) (S (ctr tx)) fl)
         (conversation_rows (ctr tx) (S (ctr tx) + List.length fl) (now clock)
            (List.length (SaveContextInput.conversation input))
            (combine (seq 0 (List.length (SaveContextInput.conversation input)))
                     (SaveContextInput.conversation input)))
         [] []
  /\ SaveContextOutput.session_id out = ctr tx
  /\ SaveContextOutput.version out = s_version row
  /\ SaveContextOutput.project_context_id out = Some (pc_id pc).
Proof.
  intros O F V H.
  assert (P : pool tx' = pool tx) by (eapply persist_session_keeps_pool; exact H).
  assert (Vw : view tx = pool tx) by (unfold view; rewrite O; apply union_no_rows).
  unfold persist_session in H.
  apply bind_ok in H. destruct H as (tx1 & mv & R & H).
  unfold client_read in R. injection R as <- <-. rewrite Vw in H.
  apply bind_ok in H. destruct H as (tx2 & row & I & H).
  apply insert_session_noop with (pc := pc) in I; [|now rewrite Vw|now rewrite Vw].
  destruct I as [-> ->].
  apply bind_ok in H. destruct H as (tx3 & [] & Fi & H).
  apply insert_files_ok in Fi. subst tx3.
  apply bind_ok in H. destruct H as (tx4 & [] & Co & H).
  apply insert_conversations_ok in Co. subst tx4.
  injection H as <- <-. simpl. rewrite O. simpl.
  split; [reflexivity|]. split; [reflexivity|]. repeat split.
Qed.

End PersistFacts.

(** ** The effect of saveSession *)

Module SaveSessionFacts.
Import JsString Json Store Connection TechStack ProjectManager SessionManager.
Import StoreFacts FrameFacts SaveFacts PersistFacts.
Local Open Scope tx_scope.

Lemma next_version_sessions (t1 t2 : Tables) u name project :
  sessions t1 = sessions t2 -> next_version t1 u name project = next_version t2 u name project.
Proof. intros E. unfold next_version, max_version. now rewrite E. Qed.

Lemma persist_needs_project input u clock fl step1 tx tx' out :
  persist_session input u clock fl step1 tx = (tx', Ok out) ->
  sql_blank (SaveContextInput.project_name input) = false.
Proof.
  unfold persist_session. destruct step1 as [[pc reason] sid]. intros H.
  apply bind_ok in H. destruct H as (tx1 & mv & _ & H).
  apply bind_ok in H. destruct H as (tx2 & row & I & _).
  apply insert_session_ok in I. tauto.
Qed.

Section WithParser.

Variable JSON_parse : string -> option json.

(** The session row that a successful save writes. *)
Definition saved_row (input : SaveContextInput.t) (u : string) (clock : Clock)
    (db : Db) (out : SaveContextOutput.t) (pc : ProjectContextRow) (snap : SnapshotRow)
  : SessionRow :=
  mkSession (SaveContextOutput.session_id out) u
            (SaveContextInput.session_name input) (SaveContextInput.project_name input)
            (next_version (tables db) u (SaveContextInput.session_name input)
                          (SaveContextInput.project_name input))
            (session_metadata (SaveContextInput.metadata input) (Some pc)
                              (ps_snapshot_reason snap) (Some (ps_id snap))
                              (filesWereSynthetic input))
            (Some (ps_id snap)) (now clock) (now clock).

(** The fingerprint of the facts detected on the files of a save. *)
Definition current_hash (input : SaveContextInput.t) (clock : Clock) : string :=
  calculateContextHash
    (tech_stack (detectTechStack JSON_parse (normalizedFiles input (iso clock)))).

(** Everything a successful save changes. *)
Record Saved (input : SaveContextInput.t) (u : string) (clock : Clock)
    (db db' : Db) (out : SaveContextOutput.t)
    (pc : ProjectContextRow) (snap : SnapshotRow) : Prop := {
  saved_user : u <> "";
  saved_sessions :
    sessions (tables db')
    = (sessions (tables db) ++ [saved_row input u clock db out pc snap])%list;
  saved_files :
    files (tables db')
    = (files (tables db)
       ++ file_rows (SaveContextOutput.session_id out)
                    (S (SaveContextOutput.session_id out))
                    (normalizedFiles input (iso clock)))%list;
  saved_conversations :
    conversations (tables db')
    = (conversations (tables db)
       ++ conversation_rows (SaveContextOutput.session_id out)
            (S (SaveContextOutput.session_id out)
             + List.length (normalizedFiles input (iso clock)))
            (now clock) (List.length (SaveContextInput.conversation input))
            (combine (seq 0 (List.length (SaveContextInput.conversation input)))
                     (SaveContextInput.conversation input)))%list;
  saved_snapshots :
    project_context_snapshots (tables db')
    = (project_context_snapshots (tables db) ++ [snap])%list;
  saved_context :
    find (active_context u (SaveContextInput.project_name input))
         (project_contexts (tables db')) = Some pc;
  saved_snapshot_context : ps_project_context_id snap = pc_id pc;
  saved_reason :
    ps_snapshot_reason snap
    = reason_for (find (active_context u (SaveContextInput.project_name input))
                       (project_contexts (tables db)))
                 (current_hash input clock);
  saved_version :
    SaveContextOutput.version out
    = next_version (tables db) u (SaveContextInput.session_name input)
                   (SaveContextInput.project_name input);
  saved_output_context : SaveContextOutput.project_context_id out = Some (pc_id pc)
}.

Lemma save_ok input userId clock db db' out :
  saveSession JSON_parse input userId clock db = (db', Ok out) ->
  exists u pc snap, userId = Some u /\ Saved input u clock db db' out pc snap.
Proof.
  unfold saveSession, transaction.
  destruct (save_callback JSON_parse input userId clock
              (mkTx (tables db) no_rows (next_id db))) as [tx r] eqn:E.
  destruct r as [a|e]; [|discriminate]. intros [= <- <-].
  unfold save_callback in E.
  apply bind_ok in E. destruct E as (tx1 & step1 & S1 & S2).
  destruct userId as [u|]; [|discriminate].
  destruct (String.eqb_spec u "") as [->|Hu]; [discriminate|].
  assert (T : truthy_string (Some u) = true).
  { unfold truthy_string. now apply negb_true_iff, String.eqb_neq. }
  rewrite T in S1. simpl andb in S1.
  destruct (String.eqb_spec (SaveContextInput.project_name input) "") as [Ep|Hp].
  { apply persist_needs_project in S2. rewrite Ep in S2. discriminate. }
  simpl negb in S1. destruct step1 as [[opc reason] osid].
  pose proof (resolve_context_keeps_core _ _ _ _ _ _ _ _ S1) as (K1 & K2 & K3).
  apply resolve_context_ok in S1.
  destruct S1 as (pc & snap & -> & -> & O & Sn & F & Cx & Rs & Pos & Rf).
  simpl in O, Sn, K1, K2, K3, Rf.
  assert (V : max_snapshot_version (pool tx1) (pc_id pc) <> 0%Z).
  { rewrite <- Cx.
    pose proof (max_snapshot_version_ge (pool tx1) snap) as G.
    assert (I : In snap (project_context_snapshots (pool tx1)))
      by (rewrite Sn; apply in_or_app; right; now left).
    specialize (G I). lia. }
  apply persist_session_ok in S2; [|exact O|exact F|exact V].
  destruct S2 as (P & Ow & Id & Ve & Pc).
  exists u, pc, snap. split; [reflexivity|].
  unfold view. rewrite P, Ow. simpl.
  constructor; simpl.
  - exact Hu.
  - rewrite K1. unfold saved_row. rewrite Id, Rs.
    now rewrite (next_version_sessions (pool tx1) (tables db)).
  - rewrite K2. now rewrite Id.
  - rewrite K3. now rewrite Id.
  - now rewrite app_nil_r.
  - now rewrite app_nil_r.
  - exact Cx.
  - rewrite Rs. exact Rf.
  - rewrite Ve. simpl. now apply next_version_sessions.
  - exact Pc.
Qed.

End WithParser.

End SaveSessionFacts.

(** ** Sequences of saves and the versions of a key *)

Module VersionFacts.
Import JsString Json Store Connection TechStack ProjectManager SessionManager.
Import StoreFacts FrameFacts SaveFacts PersistFacts SaveSessionFacts.

(** One call of saveSession. *)
Record SaveRequest : Type := mkRequest {
  req_input : SaveContextInput.t;
  req_user : option string;
  req_clock : Clock
}.

(** The versions stored for a key, in insertion order. *)
Definition versions_of (db : Db) (u name project : string) : list Z :=
  map s_version (filter (same_key u name project) (sessions (tables db))).

Definition hits_key (r : SaveRequest) (u name project : string) : bool :=
  match req_user r with
  | Some u' =>
      String.eqb u' u
      && String.eqb (SaveContextInput.session_name (req_input r)) name
      && String.eqb (SaveContextInput.project_name (req_input r)) project
  | None => false
  end.

Definition is_ok {A} (r : Result A) : bool :=
  match r with Ok _ => true | Err _ => false end.

Section WithParser.

Variable JSON_parse : string -> option json.

Definition run_save (db : Db) (r : SaveRequest) : Db * Result SaveContextOutput.t :=
  saveSession JSON_parse (req_input r) (req_user r) (req_clock r) db.

(** The calls one after the other, each on the store the previous one
    left, whether it succeeded or not. *)
Definition run (reqs : list SaveRequest) (db : Db) : Db :=
  fold_left (fun db r => fst (run_save db r)) reqs db.

(** How many calls of the sequence saved under the key. *)
Fixpoint saved_count (reqs : list SaveRequest) (db : Db) (u name project : string) : nat :=
  match reqs with
  | [] => 0
  | r :: rest =>
      (if is_ok (snd (run_save db r)) && hits_key r u name project then 1 else 0)
      + saved_count rest (fst (run_save db r)) u name project
  end.

Definition one_to (n : nat) : list Z := map Z.of_nat (seq 1 n).

Lemma fold_max_seq (m : nat) :
  forall a, fold_left Z.max (map Z.of_nat (seq (S a) m)) (Z.of_nat a) = Z.of_nat (a + m).
Proof.
  induction m as [|m IH]; intros a; simpl.
  - f_equal. lia.
  - replace (Z.max (Z.of_nat a) (Z.pos (Pos.of_succ_nat a))) with (Z.of_nat (S a)) by lia.
    rewrite IH. f_equal. lia.
Qed.

Lemma max_of_one_to (n : nat) :
  match max_of (one_to n) with Some v => v | None => 0%Z end = Z.of_nat n.
Proof.
  unfold one_to. destruct n as [|n]; [reflexivity|].
  simpl. change 1%Z with (Z.of_nat 1). rewrite fold_max_seq. reflexivity.
Qed.

Lemma one_to_S (n : nat) : one_to (S n) = (one_to n ++ [Z.of_nat (S n)])%list.
Proof. unfold one_to. rewrite seq_S, map_app. reflexivity. Qed.

(** One call: a failed one leaves the versions of every key as they
    were, a successful one appends the next version to the versions of
    its own key. *)
Lemma run_save_versions (db : Db) (r : SaveRequest) (u name project : string) (n : nat) :
  versions_of db u name project = one_to n ->
  versions_of (fst (run_save db r)) u name project
  = one_to (n + if is_ok (snd (run_save db r)) && hits_key r u name project
                then 1 else 0).
Proof.
  intros V. unfold run_save.
  destruct (saveSession JSON_parse (req_input r) (req_user r) (req_clock r) db)
    as [db' [out|e]] eqn:E; simpl.
  - apply save_ok in E. destruct E as (u' & pc & snap & Eu & S).
    unfold versions_of. rewrite (saved_sessions _ _ _ _ _ _ _ _ _ S).
    rewrite filter_app, map_app. fold (versions_of db u name project). rewrite V.
    unfold hits_key. rewrite Eu. simpl filter. unfold same_key at 1. simpl.
    destruct (String.eqb u' u && String.eqb (SaveContextInput.session_name (req_input r)) name
              && String.eqb (SaveContextInput.project_name (req_input r)) project) eqn:K.
    + simpl. rewrite Nat.add_1_r, one_to_S. f_equal. f_equal.
      apply andb_true_iff in K. destruct K as [K K3].
      apply andb_true_iff in K. destruct K as [K1 K2].
      apply String.eqb_eq in K1, K2, K3. subst u' name project.
      unfold next_version, max_version. unfold versions_of in V. rewrite V.
      rewrite max_of_one_to. lia.
    + simpl. now rewrite app_nil_r, Nat.add_0_r.
  - apply failed_save_leaves_no_session_row in E. destruct E as (E & _).
    unfold versions_of. rewrite E. fold (versions_of db u name project).
    now rewrite V, Nat.add_0_r.
Qed.

Lemma run_versions (reqs : list SaveRequest) :
  forall (db : Db) (u name project : string) (n : nat),
    versions_of db u name project = one_to n ->
    versions_of (run reqs db) u name project
    = one_to (n + saved_count reqs db u name project).
Proof.
  induction reqs as [|r reqs IH]; intros db u name project n V; simpl.
  - now rewrite Nat.add_0_r.
  - rewrite (IH _ u name project _ (run_save_versions db r u name project n V)).
    f_equal. lia.
Qed.

Lemma one_to_NoDup (n : nat) : NoDup (one_to n).
Proof.
  unfold one_to. apply Finite.Injective_map_NoDup; [|apply seq_NoDup].
  intros a b H. lia.
Qed.

End WithParser.

End VersionFacts.

(** Example store contents and calls. *)
Definition demo_clock : Clock := mkClock 1700000000%Z "2025-01-01T00:00:00.000Z".

Definition readme_file : FileInput := mkFile "README.md" "# Demo".

Definition demo_input : SaveContextInput.t :=
  SaveContextInput.make "bug-fix" "proj-a" (Some [readme_file])
    [mkMessage RUser "Initial instructions"]
    (Some [("tags", Json.JArr [Json.JStr "demo"])]).

Definition other_input : SaveContextInput.t :=
  SaveContextInput.make "bug-fix" "proj-b" (Some [readme_file]) [] None.

Definition demo_request : VersionFacts.SaveRequest :=
  VersionFacts.mkRequest demo_input (Some "alice") demo_clock.

Definition other_request : VersionFacts.SaveRequest :=
  VersionFacts.mkRequest other_input (Some "alice") demo_clock.

(** C2.  saveSession gives a new session the version max + 1 of the
    versions stored under its (user, session name, project name), or 1
    when there is none; so after any sequence of calls, on a store that
    held no version of a key, the versions stored under that key are
    1, 2, ..., N in this order, N being the number of calls of the
    sequence that saved under the key: no gap, no repetition, whatever
    the calls under other keys and the failed calls in between. *)
Theorem C2_versions_contiguous
    (JSON_parse : string -> option Json.json)
    (reqs : list VersionFacts.SaveRequest) (db : Store.Db) (u name project : string) :
  VersionFacts.versions_of db u name project = [] ->
  (forall input userId clock db' out,
      SessionManager.saveSession JSON_parse input userId clock db = (db', Store.Ok out) ->
      exists v, userId = Some v
        /\ SaveContextOutput.version out
           = (match Store.max_version (Store.tables db) v
                      (SaveContextInput.session_name input)
                      (SaveContextInput.project_name input) with
              | Some m => m
              | None => 0
              end + 1)%Z)
  /\ VersionFacts.versions_of (VersionFacts.run JSON_parse reqs db) u name project
     = VersionFacts.one_to (VersionFacts.saved_count JSON_parse reqs db u name project)
  /\ NoDup (VersionFacts.versions_of (VersionFacts.run JSON_parse reqs db) u name project).
Proof.
  intros V.
  assert (E : VersionFacts.versions_of (VersionFacts.run JSON_parse reqs db) u name project
              = VersionFacts.one_to
                  (VersionFacts.saved_count JSON_parse reqs db u name project)).
  { change (VersionFacts.saved_count JSON_parse reqs db u name project)
      with (0 + VersionFacts.saved_count JSON_parse reqs db u name project).
    apply VersionFacts.run_versions. exact V. }
  split; [|split].
  - intros input userId clock db' out H.
    apply SaveSessionFacts.save_ok in H. destruct H as (v & pc & snap & -> & S).
    exists v. split; [reflexivity|].
    apply (SaveSessionFacts.saved_version _ _ _ _ _ _ _ _ _ S).
  - exact E.
  - rewrite E. apply VersionFacts.one_to_NoDup.
Qed.

Lemma C2_versions_contiguous_witness :
  VersionFacts.versions_of
    (VersionFacts.run JsonReader.parse
       [demo_request; other_request; demo_request; demo_request] Store.empty_db)
    "alice" "bug-fix" "proj-a"
  = [1; 2; 3]%Z.
Proof.
  destruct (C2_versions_contiguous JsonReader.parse
              [demo_request; other_request; demo_request; demo_request]
              Store.empty_db "alice" "bug-fix" "proj-a" eq_refl) as (_ & E & _).
  rewrite E. vm_compute. reflexivity.
Defined.

(** ** Substrings *)

Module IncludesFacts.
Import JsString StringFacts.








End IncludesFacts.

(** ** Object literals and spreads *)

Module ObjectFacts.
Import Json SessionManager.

Lemma lookup_set_same {A} (k : string) (v : A) (l : list (string * A)) :
  lookup k (set k v l) = Some v.
Proof.
  induction l as [|[k' v'] l IH]; simpl.
  - now rewrite String.eqb_refl.
  - destruct (String.eqb k k') eqn:E; simpl; [now rewrite String.eqb_refl|].
    now rewrite E.
Qed.


Lemma has_key_set {A} (k : string) (v : A) (l : list (string * A)) :
  has_key k (set k v l) = true.
Proof. unfold has_key. now rewrite lookup_set_same. Qed.






End ObjectFacts.


(** ** The snapshot reason *)

Module ReasonFacts.
Import Store SaveFacts.

Lemma reason_for_tech_change existing h :
  reason_for existing h = TechChange
  <-> exists c, existing = Some c /\ pc_context_hash c <> Some h.
Proof.
  unfold reason_for. destruct existing as [c|].
  - destruct (pc_context_hash c) as [h'|] eqn:E.
    + destruct (String.eqb_spec h' h) as [->|N].
      * split; [discriminate|]. intros (c' & [= <-] & N). congruence.
      * split; [|reflexivity]. intros _. exists c. split; [reflexivity|congruence].
    + split; [|reflexivity]. intros _. exists c. split; [reflexivity|congruence].
  - split; [discriminate|]. intros (c & E & _). discriminate.
Qed.

Lemma reason_for_auto existing h :
  reason_for existing h = Auto
  <-> existing = None \/ exists c, existing = Some c /\ pc_context_hash c = Some h.
Proof.
  unfold reason_for. destruct existing as [c|].
  - destruct (pc_context_hash c) as [h'|] eqn:E.
    + destruct (String.eqb_spec h' h) as [->|N].
      * split; [|reflexivity]. intros _. right. now exists c.
      * split; [discriminate|]. intros [|(c' & [= <-] & E')]; [discriminate|congruence].
    + split; [discriminate|]. intros [|(c' & [= <-] & E')]; [discriminate|congruence].
  - split; [|reflexivity]. intros _. now left.
Qed.

End ReasonFacts.

(** A save whose only message has an empty text: the conversation insert
    violates conversations_content_not_empty, after the session row and
    the file row have been inserted. *)
Definition empty_message_input : SaveContextInput.t :=
  SaveContextInput.make "bug-fix" "proj-a" (Some [readme_file]) [mkMessage RUser ""] None.

Definition failed_save : Store.Db * Store.Result SaveContextOutput.t :=
  SessionManager.saveSession JsonReader.parse empty_message_input (Some "alice")
                             demo_clock Store.empty_db.

(** C1 (the code departs from the claim).  A save that fails after the
    file inserts leaves no session, file or conversation row, as claimed:
    those go through the transaction's client and are rolled back
    (FrameFacts.failed_save_leaves_no_session_row).  The project-context
    row and the snapshot row of the same save stay: the ProjectManager
    writes them with [db.query] and [db.transaction], on connections of
    the pool, and they are committed before the failure. *)
Theorem C1_project_writes_survive_rollback :
  snd failed_save = Store.Err (Store.ConstraintViolation "conversations_content_not_empty")
  /\ Store.sessions (Store.tables (fst failed_save)) = []
  /\ Store.files (Store.tables (fst failed_save)) = []
  /\ Store.conversations (Store.tables (fst failed_save)) = []
  /\ map Store.pc_project_name (Store.project_contexts (Store.tables (fst failed_save)))
     = ["proj-a"]
  /\ map Store.ps_snapshot_version
         (Store.project_context_snapshots (Store.tables (fst failed_save)))
     = [1%Z].
Proof. vm_compute. repeat split; reflexivity. Qed.

Definition first_save : Store.Db * Store.Result SaveContextOutput.t :=
  SessionManager.saveSession JsonReader.parse demo_input (Some "alice")
                             demo_clock Store.empty_db.

Definition second_save : Store.Db * Store.Result SaveContextOutput.t :=
  SessionManager.saveSession JsonReader.parse demo_input (Some "alice")
                             demo_clock (fst first_save).

(** C3 as stated does not hold: a second save of the same files, whose
    detected facts have the fingerprint stored by the first save, succeeds
    and creates a second snapshot, with reason "auto". *)
Lemma C3_unchanged_facts_still_snapshot :
  VersionFacts.is_ok (snd first_save) = true
  /\ VersionFacts.is_ok (snd second_save) = true
  /\ map Store.pc_context_hash (Store.project_contexts (Store.tables (fst first_save)))
     = [Some (SaveSessionFacts.current_hash JsonReader.parse demo_input demo_clock)]
  /\ map Store.ps_snapshot_reason
         (Store.project_context_snapshots (Store.tables (fst first_save)))
     = [Auto]
  /\ map Store.ps_snapshot_reason
         (Store.project_context_snapshots (Store.tables (fst second_save)))
     = [Auto; Auto].
Proof. vm_compute. repeat split; reflexivity. Qed.

(** C3, amended.  Every saveSession that succeeds creates exactly one new
    snapshot, under the active context of (user, project) (the bootstrap
    trigger of the store adds none, the context having a snapshot by
    then).  Its reason is "tech-change" exactly when an active context
    existed before the save with a stored fingerprint other than that of
    the freshly detected facts, and "auto" otherwise: on the first save of
    the project and on a save with unchanged facts. *)
Theorem C3_one_snapshot_per_save
    (JSON_parse : string -> option Json.json) (input : SaveContextInput.t)
    (userId : option string) (clock : Clock) (db db' : Store.Db)
    (out : SaveContextOutput.t) :
  SessionManager.saveSession JSON_parse input userId clock db = (db', Store.Ok out) ->
  exists u snap,
    userId = Some u
    /\ Store.project_context_snapshots (Store.tables db')
       = (Store.project_context_snapshots (Store.tables db) ++ [snap])%list
    /\ SaveContextOutput.project_context_id out = Some (Store.ps_project_context_id snap)
    /\ (Store.ps_snapshot_reason snap = TechChange
        <-> exists c,
              find (Connection.active_context u (SaveContextInput.project_name input))
                   (Store.project_contexts (Store.tables db)) = Some c
              /\ Store.pc_context_hash c
                 <> Some (SaveSessionFacts.current_hash JSON_parse input clock))
    /\ (Store.ps_snapshot_reason snap = Auto
        <-> find (Connection.active_context u (SaveContextInput.project_name input))
                 (Store.project_contexts (Store.tables db)) = None
            \/ exists c,
                 find (Connection.active_context u (SaveContextInput.project_name input))
                      (Store.project_contexts (Store.tables db)) = Some c
                 /\ Store.pc_context_hash c
                    = Some (SaveSessionFacts.current_hash JSON_parse input clock)).
Proof.
  intros H. apply SaveSessionFacts.save_ok in H.
  destruct H as (u & pc & snap & -> & S).
  exists u, snap. split; [reflexivity|].
  split; [apply (SaveSessionFacts.saved_snapshots _ _ _ _ _ _ _ _ _ S)|].
  split.
  { rewrite (SaveSessionFacts.saved_snapshot_context _ _ _ _ _ _ _ _ _ S).
    apply (SaveSessionFacts.saved_output_context _ _ _ _ _ _ _ _ _ S). }
  rewrite (SaveSessionFacts.saved_reason _ _ _ _ _ _ _ _ _ S).
  split; [apply ReasonFacts.reason_for_tech_change|apply ReasonFacts.reason_for_auto].
Qed.

Lemma C3_one_snapshot_per_save_witness :
  exists u snap,
    Some "alice" = Some u
    /\ Store.project_context_snapshots (Store.tables (fst second_save))
       = (Store.project_context_snapshots (Store.tables (fst first_save)) ++ [snap])%list
    /\ Store.ps_snapshot_reason snap = Auto.
Proof.
  destruct (C3_one_snapshot_per_save JsonReader.parse demo_input (Some "alice") demo_clock
              (fst first_save) (fst second_save)
              (SaveContextOutput.make 7 Versioned "Session saved as bug-fix-2" 2 (Some 1)))
    as (u & snap & Eu & Es & _ & _ & Ea).
  - vm_compute. reflexivity.
  - exists u, snap. split; [exact Eu|]. split; [exact Es|].
    apply Ea. right. injection Eu as <-.
    eexists. split; vm_compute; reflexivity.
Defined.

(** ** The synthesized file *)

Module SyntheticFacts.
Import JsString Json Store SessionManager IncludesFacts.

Lemma synthetic_path input ts : path (createSyntheticFile input ts) = "CONVERSATION_SUMMARY.md".
Proof. reflexivity. Qed.



Lemma normalizedFiles_nonempty input ts : normalizedFiles input ts <> [].
Proof.
  unfold normalizedFiles. destruct (SaveContextInput.files input) as [[|f r]|]; discriminate.
Qed.

End SyntheticFacts.





(** ** LIKE patterns *)

Module LikeFacts.
Import JsString Store IncludesFacts StringFacts.














End LikeFacts.

(** ** Queries: ORDER BY, LIMIT, filters *)

Module QueryFacts.
Import JsString Json Store Connection SessionManager.

Lemma insert_by_perm {A} (le : A -> A -> bool) (x : A) (l : list A) :
  Permutation (insert_by le x l) (x :: l).
Proof.
  induction l as [|y l IH]; simpl; [reflexivity|].
  destruct (le y x); [|reflexivity].
  rewrite IH. apply perm_swap.
Qed.

Lemma order_by_perm {A} (le : A -> A -> bool) (l : list A) :
  Permutation (order_by le l) l.
Proof.
  unfold order_by.
  assert (G : forall acc, Permutation (fold_left (fun acc x => insert_by le x acc) l acc)
                                      (acc ++ l)).
  { induction l as [|x l IH]; intros acc; simpl; [now rewrite app_nil_r|].
    rewrite IH, insert_by_perm. apply Permutation_middle. }
  apply (G []).
Qed.

Lemma order_by_In {A} (le : A -> A -> bool) (l : list A) (x : A) :
  In x (order_by le l) <-> In x l.
Proof.
  split; apply Permutation_in; [|apply Permutation_sym]; apply order_by_perm.
Qed.

Lemma In_firstn {A} (n : nat) (l : list A) (x : A) : In x (firstn n l) -> In x l.
Proof.
  intros H. rewrite <- (firstn_skipn n l). apply in_or_app. now left.
Qed.

Section Sorted.

Variable A : Type.
Variable le : A -> A -> bool.
Hypothesis le_total : forall a b, le a b = true \/ le b a = true.
Hypothesis le_trans : forall a b c, le a b = true -> le b c = true -> le a c = true.





End Sorted.




Lemma result_map_ext {A B} (f g : A -> Result B) (l : list A) :
  (forall x, In x l -> f x = g x) -> result_map f l = result_map g l.
Proof.
  induction l as [|x l IH]; intros H; simpl; [reflexivity|].
  rewrite (H x) by now left. rewrite IH; [reflexivity|].
  intros y Hy. apply H. now right.
Qed.

Lemma filter_filter_implied {A} (p q : A -> bool) (l : list A) :
  (forall x, In x l -> p x = true -> q x = true) ->
  filter p (filter q l) = filter p l.
Proof.
  induction l as [|x l IH]; intros H; simpl; [reflexivity|].
  destruct (q x) eqn:Q; simpl.
  - destruct (p x); rewrite IH; auto; intros y Hy; apply H; now right.
  - destruct (p x) eqn:P.
    + rewrite (H x) in Q; [discriminate|now left|exact P].
    + apply IH. intros y Hy. apply H. now right.
Qed.

Lemma existsb_filter_implied {A} (p q : A -> bool) (l : list A) :
  (forall x, In x l -> p x = true -> q x = true) ->
  existsb p (filter q l) = existsb p l.
Proof.
  induction l as [|x l IH]; intros H; simpl; [reflexivity|].
  destruct (q x) eqn:Q; simpl.
  - rewrite IH; [reflexivity|]. intros y Hy. apply H. now right.
  - destruct (p x) eqn:P.
    + rewrite (H x) in Q; [discriminate|now left|exact P].
    + apply IH. intros y Hy. apply H. now right.
Qed.

Lemma find_unique_id (l : list SessionRow) (s : SessionRow) :
  NoDup (map s_id l) -> In s l -> find (fun x => (s_id x =? s_id s)%nat) l = Some s.
Proof.
  induction l as [|h l IH]; intros N H; [destruct H|].
  inversion N as [|? ? Hn N']; subst. simpl.
  destruct H as [->|H].
  - now rewrite Nat.eqb_refl.
  - destruct (Nat.eqb_spec (s_id h) (s_id s)) as [E|_]; [|now apply IH].
    exfalso. apply Hn. rewrite E. now apply in_map.
Qed.

Lemma find_filter_kept {A} (p q : A -> bool) (l : list A) (x : A) :
  find p l = Some x -> q x = true -> find p (filter q l) = Some x.
Proof.
  induction l as [|h l IH]; simpl; [discriminate|].
  destruct (p h) eqn:P.
  - intros [= ->] Q. rewrite Q. simpl. now rewrite P.
  - intros F Q. destruct (q h); simpl; [rewrite P|]; now apply IH.
Qed.

Lemma find_filter_none {A} (p q : A -> bool) (l : list A) :
  find p l = None -> find p (filter q l) = None.
Proof.
  induction l as [|h l IH]; simpl; [reflexivity|].
  destruct (p h) eqn:P; [discriminate|].
  intros F. destruct (q h); simpl; [rewrite P|]; now apply IH.
Qed.

End QueryFacts.

(** ** Resuming *)

Module ResumeFacts.
Import JsString Json Store Connection SessionManager.
Import IncludesFacts StringFacts ObjectFacts LikeFacts QueryFacts.


Fixpoint distinct (l : list nat) : bool :=
  match l with
  | [] => true
  | x :: r => negb (existsb (Nat.eqb x) r) && distinct r
  end.

(** The primary key of sessions. *)
Definition session_ids_unique (t : Tables) : bool := distinct (map s_id (sessions t)).

(** No session's snapshot_id is the identifier of a project context
    (it references a snapshot, and identifiers are not shared). *)
Definition no_context_join (t : Tables) : bool :=
  forallb (fun s => match joined_context t s with None => true | Some _ => false end)
          (sessions t).

Lemma distinct_NoDup (l : list nat) : distinct l = true -> NoDup l.
Proof.
  induction l as [|x l IH]; simpl; intros H; [constructor|].
  apply andb_true_iff in H. destruct H as [H1 H2].
  constructor; [|auto]. intros I.
  apply negb_true_iff in H1.
  assert (existsb (Nat.eqb x) l = true)
    by (apply existsb_exists; exists x; split; [exact I|apply Nat.eqb_refl]).
  congruence.
Qed.





Lemma fuzzy_rows_In input u t s :
  In s (fuzzy_rows input u t) -> In s (sessions t) /\ fuzzy_where input u s = true.
Proof.
  unfold fuzzy_rows. intros H. apply In_firstn, order_by_In, filter_In in H. exact H.
Qed.





Lemma exact_matches_In input u t s :
  In s (exact_matches input u t) <-> In s (sessions t) /\ exact_where input u s = true.
Proof. unfold exact_matches. rewrite order_by_In. apply filter_In. Qed.


Section WithRuntime.

Variable JSON_parse : string -> option json.
Variable summaries_query : Id -> Result (list (option Id * string)).

(** retrieveFullSession on a session row of the table, under the primary
    key. *)
Lemma retrieveFullSession_row t s filePath :
  session_ids_unique t = true -> In s (sessions t) ->
  retrieveFullSession JSON_parse summaries_query (s_id s) filePath t
  = result_bind (summaries_query (s_id s)) (fun summariesResult =>
      Ok (ResumeContextOutput.make
            (s_id s) (s_name s) (s_project_name s) (s_version s)
            (map (fun f => mkFile (f_path f) (f_content f)) (files_of t (s_id s) filePath))
            (map (fun c => mkMessage (c_role c) (c_content c)) (conversation_of t (s_id s)))
            (set "project_context"
                 (option_map (project_context_info t s) (joined_context t s))
                 (map (fun e => (fst e, Some (snd e)))
                      (session_metadata_object JSON_parse (s_metadata s))))
            (map (fun sm => (summary_path (files_of t (s_id s) filePath) (fst sm), snd sm))
                 summariesResult))).
Proof.
  intros U I. unfold retrieveFullSession.
  rewrite (find_unique_id (sessions t) s (distinct_NoDup _ U) I). reflexivity.
Qed.




Lemma resumeSession_newest input u db s s' more :
  u <> "" -> exact_matches input u (tables db) = s :: s' :: more ->
  truthy_string (ResumeContextInput.project_name input) = true ->
  resumeSession JSON_parse summaries_query input (Some u) db
  = result_bind (retrieveFullSession JSON_parse summaries_query (s_id s)
                                     (ResumeContextInput.file_path input) (tables db))
                (fun r => Ok (Full r)).
Proof.
  intros Hu E P. unfold resumeSession. apply String.eqb_neq in Hu.
  now rewrite Hu, E, P.
Qed.

End WithRuntime.

End ResumeFacts.

(** A store with two sessions of alice named bug-fix, in two projects
    and saved at different times, and a session of bob with the name and
    project of alice's first one. *)
Definition later_clock : Clock := mkClock 1700000100%Z "2025-01-01T00:01:40.000Z".

Definition proj_b_request : VersionFacts.SaveRequest :=
  VersionFacts.mkRequest
    (SaveContextInput.make "bug-fix" "proj-b" (Some [readme_file])
       [mkMessage RUser "Initial instructions"] None)
    (Some "alice") later_clock.

Definition bob_request : VersionFacts.SaveRequest :=
  VersionFacts.mkRequest demo_input (Some "bob") later_clock.

Definition shared_db : Store.Db :=
  VersionFacts.run JsonReader.parse [demo_request; proj_b_request; bob_request]
                   Store.empty_db.

(** The store answers the query on summaries with no row. *)
Definition no_summaries : Store.Id -> Store.Result (list (option Store.Id * string)) :=
  fun _ => Store.Ok [].


Definition resume_in_project : ResumeContextInput.t :=
  ResumeContextInput.make "bug-fix" (Some "proj-a") None.





(** ** What a user's calls read *)

Module IsolationFacts.
Import JsString Json Store Connection SessionManager.
Import ObjectFacts QueryFacts ResumeFacts.

Definition is_owner (u : string) (s : SessionRow) : bool := String.eqb (s_user_id s) u.

(** The part of the store that belongs to a user: the user's sessions
    and project contexts, and the file, conversation and snapshot rows
    attached to them. *)
Definition owned (u : string) (t : Tables) : Tables :=
  let mine := filter (is_owner u) (sessions t) in
  let my_session (id : Id) := existsb (fun s => (s_id s =? id)%nat) mine in
  let my_contexts := filter (fun c => String.eqb (pc_user_id c) u) (project_contexts t) in
  mkTables mine
           (filter (fun f => my_session (f_session_id f)) (files t))
           (filter (fun c => my_session (c_session_id c)) (conversations t))
           my_contexts
           (filter (fun p => existsb (fun c => (pc_id c =? ps_project_context_id p)%nat)
                                     my_contexts)
                   (project_context_snapshots t)).

Definition owned_db (u : string) (db : Db) : Db := mkDb (owned u (tables db)) (next_id db).

Lemma filter_keeps_unique_ids (keep : SessionRow -> bool) (rows : list SessionRow) :
  NoDup (map s_id rows) -> NoDup (map s_id (filter keep rows)).
Proof.
  induction rows as [|x rows IH]; simpl; intros N; [constructor|].
  inversion N as [|? ? Hn N']; subst.
  destruct (keep x); simpl; [|auto].
  constructor; [|auto]. intros I. apply Hn.
  apply in_map_iff in I. destruct I as (y & E & I). apply filter_In in I.
  rewrite <- E. apply in_map. tauto.
Qed.

Lemma result_map_In {A B} (f : A -> Result B) (l : list A) (ys : list B) (y : B) :
  result_map f l = Ok ys -> In y ys -> exists x, In x l /\ f x = Ok y.
Proof.
  revert ys. induction l as [|x l IH]; intros ys; simpl.
  - intros [= <-] [].
  - destruct (f x) as [b|e] eqn:E; simpl; [|discriminate].
    destruct (result_map f l) as [bs|e] eqn:R; simpl; [|discriminate].
    intros [= <-] [<-|I].
    + exists x. split; [now left|exact E].
    + destruct (IH bs eq_refl I) as (x' & I' & E'). exists x'. split; [now right|exact E'].
Qed.

Section Owner.

Variable u : string.
Variable t : Tables.

Lemma mine_In s : In s (sessions (owned u t)) <-> In s (sessions t) /\ s_user_id s = u.
Proof.
  simpl. rewrite filter_In. unfold is_owner. now rewrite String.eqb_eq.
Qed.

Lemma my_session_true s :
  In s (sessions t) -> s_user_id s = u ->
  existsb (fun x => (s_id x =? s_id s)%nat) (filter (is_owner u) (sessions t)) = true.
Proof.
  intros I E. apply existsb_exists. exists s. split; [|apply Nat.eqb_refl].
  apply filter_In. split; [exact I|]. unfold is_owner. now apply String.eqb_eq.
Qed.

Lemma exact_where_owner input s : exact_where input u s = true -> is_owner u s = true.
Proof.
  unfold exact_where, is_owner. intros H.
  apply andb_true_iff in H. destruct H as [H _].
  apply andb_true_iff in H. tauto.
Qed.

Lemma fuzzy_where_owner input s : fuzzy_where input u s = true -> is_owner u s = true.
Proof.
  unfold fuzzy_where, is_owner. intros H.
  apply andb_true_iff in H. destruct H as [H _].
  apply andb_true_iff in H. tauto.
Qed.

Lemma list_where_owner input t0 s : list_where input u t0 s = true -> is_owner u s = true.
Proof.
  unfold list_where, is_owner. intros H.
  apply andb_true_iff in H. destruct H as [H _].
  apply andb_true_iff in H. tauto.
Qed.

Lemma exact_matches_owned input :
  exact_matches input u (owned u t) = exact_matches input u t.
Proof.
  unfold exact_matches. simpl. f_equal.
  apply filter_filter_implied. intros s _. apply exact_where_owner.
Qed.

Lemma fuzzy_rows_owned input : fuzzy_rows input u (owned u t) = fuzzy_rows input u t.
Proof.
  unfold fuzzy_rows, owned. cbn [sessions]. do 2 f_equal.
  apply filter_filter_implied. intros s _. apply fuzzy_where_owner.
Qed.

Lemma session_files_owned s :
  In s (sessions t) -> s_user_id s = u ->
  filter (fun f => (f_session_id f =? s_id s)%nat) (files (owned u t))
  = filter (fun f => (f_session_id f =? s_id s)%nat) (files t).
Proof.
  intros I E. simpl. apply filter_filter_implied. intros f _ H.
  apply Nat.eqb_eq in H. rewrite H. now apply my_session_true.
Qed.

Lemma aggregated_paths_owned s :
  In s (sessions t) -> s_user_id s = u ->
  aggregated_paths (owned u t) (s_id s) = aggregated_paths t (s_id s).
Proof.
  intros I E. unfold aggregated_paths. now rewrite session_files_owned.
Qed.

Lemma files_of_owned s filePath :
  In s (sessions t) -> s_user_id s = u ->
  files_of (owned u t) (s_id s) filePath = files_of t (s_id s) filePath.
Proof.
  intros I E. unfold files_of. simpl. f_equal.
  apply filter_filter_implied. intros f _ H.
  apply andb_true_iff in H. destruct H as [H _].
  apply Nat.eqb_eq in H. rewrite H. now apply my_session_true.
Qed.

Lemma conversation_of_owned s :
  In s (sessions t) -> s_user_id s = u ->
  conversation_of (owned u t) (s_id s) = conversation_of t (s_id s).
Proof.
  intros I E. unfold conversation_of. simpl. f_equal.
  apply filter_filter_implied. intros c _ H.
  apply Nat.eqb_eq in H. rewrite H. now apply my_session_true.
Qed.

Lemma joined_context_none s :
  no_context_join t = true -> In s (sessions t) ->
  joined_context t s = None /\ joined_context (owned u t) s = None.
Proof.
  intros H I. unfold no_context_join in H. rewrite forallb_forall in H.
  specialize (H s I). destruct (joined_context t s) eqn:J; [discriminate|].
  split; [reflexivity|]. unfold joined_context in *.
  destruct (s_snapshot_id s); [|reflexivity]. simpl. now apply find_filter_none.
Qed.

Lemma list_where_owned input s :
  In s (sessions t) -> s_user_id s = u ->
  list_where input u (owned u t) s = list_where input u t s.
Proof.
  intros I E. unfold list_where. f_equal.
  destruct (truthy_string (ListContextsInput.file_path input)); [|reflexivity].
  destruct (ListContextsInput.file_path input) as [fp|]; [|reflexivity].
  simpl. apply existsb_filter_implied. intros f _ H.
  apply andb_true_iff in H. destruct H as [H _].
  apply Nat.eqb_eq in H. rewrite H. now apply my_session_true.
Qed.

Lemma list_filter_owned input :
  filter (list_where input u (owned u t)) (sessions (owned u t))
  = filter (list_where input u t) (sessions t).
Proof.
  simpl. rewrite <- (filter_filter_implied (list_where input u t) (is_owner u) (sessions t))
    by (intros s _; apply list_where_owner).
  apply filter_ext_in. intros s I. apply filter_In in I. destruct I as [I O].
  apply list_where_owned; [exact I|]. unfold is_owner in O. now apply String.eqb_eq.
Qed.

End Owner.

Section WithRuntime.

Variable JSON_parse : string -> option json.
Variable summaries_query : Id -> Result (list (option Id * string)).

Lemma retrieveFullSession_owned u t s filePath :
  session_ids_unique t = true -> no_context_join t = true ->
  In s (sessions t) -> s_user_id s = u ->
  retrieveFullSession JSON_parse summaries_query (s_id s) filePath (owned u t)
  = retrieveFullSession JSON_parse summaries_query (s_id s) filePath t.
Proof.
  intros K J I E. unfold retrieveFullSession.
  rewrite (find_unique_id (sessions t) s (distinct_NoDup _ K) I).
  rewrite (find_unique_id (sessions (owned u t)) s).
  - rewrite files_of_owned, conversation_of_owned by assumption.
    destruct (joined_context_none u t s J I) as [-> ->]. reflexivity.
  - simpl. apply filter_keeps_unique_ids, distinct_NoDup, K.
  - apply mine_In. now split.
Qed.

Lemma retrieveFullSession_id t s filePath r :
  session_ids_unique t = true -> In s (sessions t) ->
  retrieveFullSession JSON_parse summaries_query (s_id s) filePath t = Ok r ->
  ResumeContextOutput.session_id r = s_id s.
Proof.
  intros K I. rewrite (retrieveFullSession_row _ _ _ _ _ K I).
  destruct (summaries_query (s_id s)); simpl; [|discriminate].
  intros [= <-]. reflexivity.
Qed.

Lemma fuzzySearchSessions_owned input u t :
  fuzzySearchSessions input u (owned u t) = fuzzySearchSessions input u t.
Proof.
  unfold fuzzySearchSessions. destruct (String.eqb u ""); [reflexivity|].
  rewrite fuzzy_rows_owned. apply result_map_ext. intros s I.
  apply fuzzy_rows_In in I. destruct I as [I W].
  apply fuzzy_where_owner in W. unfold is_owner in W. apply String.eqb_eq in W.
  now rewrite aggregated_paths_owned.
Qed.

(** resumeSession reads the caller's part of the store only. *)
Lemma resumeSession_owned input u db :
  session_ids_unique (tables db) = true -> no_context_join (tables db) = true ->
  resumeSession JSON_parse summaries_query input (Some u) (owned_db u db)
  = resumeSession JSON_parse summaries_query input (Some u) db.
Proof.
  intros K J. unfold resumeSession, owned_db. cbn [tables].
  destruct (String.eqb u ""); [reflexivity|].
  rewrite exact_matches_owned.
  destruct (exact_matches input u (tables db)) as [|s more] eqn:E.
  - now rewrite fuzzySearchSessions_owned.
  - assert (I : In s (sessions (tables db)) /\ s_user_id s = u).
    { assert (H : In s (exact_matches input u (tables db))) by (rewrite E; now left).
      apply exact_matches_In in H. destruct H as [H W]. split; [exact H|].
      apply exact_where_owner in W. unfold is_owner in W. now apply String.eqb_eq. }
    destruct I as [I O].
    rewrite (retrieveFullSession_owned u (tables db) s _ K J I O). reflexivity.
Qed.

(** And answers with the caller's sessions only. *)
Lemma resumeSession_rows input u db :
  session_ids_unique (tables db) = true ->
  (forall r, resumeSession JSON_parse summaries_query input (Some u) db = Ok (Full r) ->
             exists s, In s (sessions (tables db))
                       /\ s_id s = ResumeContextOutput.session_id r /\ s_user_id s = u)
  /\ (forall ms m,
         resumeSession JSON_parse summaries_query input (Some u) db = Ok (Matches ms) ->
         In m ms ->
         exists s, In s (sessions (tables db))
                   /\ s_id s = AmbiguousMatch.session_id m /\ s_user_id s = u).
Proof.
  intros K. unfold resumeSession.
  destruct (String.eqb u ""); [split; intros; discriminate|].
  destruct (exact_matches input u (tables db)) as [|s more] eqn:E.
  - split.
    + intros r H. destruct (fuzzySearchSessions input u (tables db)); discriminate.
    + intros ms m H I.
      destruct (fuzzySearchSessions input u (tables db)) as [ms'|] eqn:F; [|discriminate].
      injection H as <-. unfold fuzzySearchSessions in F.
      destruct (String.eqb u ""); [discriminate|].
      destruct (result_map_In _ _ _ _ F I) as (x & Ix & Ex).
      apply fuzzy_rows_In in Ix. destruct Ix as [Ix W].
      apply fuzzy_where_owner in W. unfold is_owner in W. apply String.eqb_eq in W.
      exists x. split; [exact Ix|]. split; [|exact W].
      destruct (filter_Boolean (aggregated_paths (tables db) (s_id x))); [|discriminate].
      simpl in Ex. injection Ex as <-. reflexivity.
  - assert (A : forall x, In x (s :: more) ->
                          In x (sessions (tables db)) /\ s_user_id x = u).
    { intros x Hx. rewrite <- E in Hx. apply exact_matches_In in Hx.
      destruct Hx as [Hx W]. split; [exact Hx|].
      apply exact_where_owner in W. unfold is_owner in W. now apply String.eqb_eq. }
    destruct (A s (or_introl eq_refl)) as [I O].
    assert (Fr : forall r,
               result_bind (retrieveFullSession JSON_parse summaries_query (s_id s)
                              (ResumeContextInput.file_path input) (tables db))
                           (fun r => Ok (Full r)) = Ok (Full r) ->
               exists s0, In s0 (sessions (tables db))
                          /\ s_id s0 = ResumeContextOutput.session_id r
                          /\ s_user_id s0 = u).
    { intros r H.
      destruct (retrieveFullSession JSON_parse summaries_query (s_id s)
                  (ResumeContextInput.file_path input) (tables db)) as [r'|] eqn:R;
        [|discriminate].
      simpl in H. injection H as <-.
      apply (retrieveFullSession_id _ _ _ _ K I) in R.
      exists s. split; [exact I|]. split; [now rewrite R|exact O]. }
    assert (Fm : forall ms,
               result_bind (retrieveFullSession JSON_parse summaries_query (s_id s)
                              (ResumeContextInput.file_path input) (tables db))
                           (fun r => Ok (Full r)) = Ok (Matches ms) -> False).
    { intros ms H.
      destruct (retrieveFullSession JSON_parse summaries_query (s_id s)
                  (ResumeContextInput.file_path input) (tables db)); discriminate. }
    destruct more as [|s' more].
    + split; [exact Fr|]. intros ms m H. now elim (Fm ms).
    + destruct (negb (truthy_string (ResumeContextInput.project_name input))).
      * split; [intros r H; discriminate|].
        intros ms m [= <-] Im.
        change (In m (map candidate (s :: s' :: more))) in Im. apply in_map_iff in Im. destruct Im as (x & <- & Ix).
        destruct (A x Ix) as [Hx Ox]. exists x. now repeat split.
      * split; [exact Fr|]. intros ms m H. now elim (Fm ms).
Qed.

End WithRuntime.

Lemma list_rows_In input u t s :
  In s (list_rows input u t) -> In s (sessions t) /\ list_where input u t s = true.
Proof.
  unfold list_rows, limit_offset. intros I.
  assert (I' : In s (skipn (match ListContextsInput.offset input with
                            | Some m => m
                            | None => 0
                            end)
                           (order_by newest_first
                              (filter (list_where input u t) (sessions t))))).
  { destruct (ListContextsInput.limit input); [now apply In_firstn in I|exact I]. }
  apply filter_In. apply (order_by_In newest_first).
  rewrite <- (firstn_skipn (match ListContextsInput.offset input with
                            | Some m => m
                            | None => 0
                            end)).
  apply in_or_app. now right.
Qed.

(** listSessions reads the caller's part of the store only. *)
Lemma listSessions_owned input u db :
  listSessions input (Some u) (owned_db u db) = listSessions input (Some u) db.
Proof.
  unfold listSessions, owned_db. cbn [tables].
  destruct (String.eqb u ""); [reflexivity|].
  unfold list_rows. rewrite !list_filter_owned.
  f_equal. apply result_map_ext. intros s I.
  apply list_rows_In in I. destruct I as [Is W].
  apply list_where_owner in W. unfold is_owner in W. apply String.eqb_eq in W.
  now rewrite aggregated_paths_owned.
Qed.

Lemma listSessions_rows input u db o x :
  listSessions input (Some u) db = Ok o -> In x (ListContextsOutput.sessions o) ->
  exists s, In s (sessions (tables db))
            /\ s_id s = ListedSession.session_id x /\ s_user_id s = u.
Proof.
  unfold listSessions. destruct (String.eqb u ""); [discriminate|].
  destruct (result_map _ (list_rows input u (tables db))) as [rows|] eqn:R; [|discriminate].
  simpl. intros [= <-] I. simpl in I.
  destruct (result_map_In _ _ _ _ R I) as (s & Is & Es).
  apply list_rows_In in Is. destruct Is as [Iw W].
  apply list_where_owner in W. unfold is_owner in W. apply String.eqb_eq in W.
  exists s. split; [exact Iw|]. split; [|exact W].
  destruct (filter_Boolean (aggregated_paths (tables db) (s_id s))); [|discriminate].
  simpl in Es. injection Es as <-. reflexivity.
Qed.

End IsolationFacts.

(** The store after alice's two saves alone. *)
Definition alice_db : Store.Db :=
  VersionFacts.run JsonReader.parse [demo_request; proj_b_request] Store.empty_db.

Definition list_all : ListContextsInput.t := ListContextsInput.make None None None None.

(** C5.  resumeSession and listSessions called for a user read that
    user's part of the store only: on two stores whose parts owned by the
    user are the same, they return the same result, whatever the other
    users' rows are; and every session they return (hydrated, as a
    candidate of an exact or a fuzzy lookup, or listed) is a session row
    of that user.  Session identifiers are a primary key, and a
    snapshot's identifier is not the identifier of a project context. *)
Theorem C5_user_isolation
    (JSON_parse : string -> option Json.json)
    (summaries_query : Store.Id -> Store.Result (list (option Store.Id * string)))
    (resume : ResumeContextInput.t) (listing : ListContextsInput.t)
    (u : string) (db1 db2 : Store.Db) :
  ResumeFacts.session_ids_unique (Store.tables db1) = true ->
  ResumeFacts.no_context_join (Store.tables db1) = true ->
  ResumeFacts.session_ids_unique (Store.tables db2) = true ->
  ResumeFacts.no_context_join (Store.tables db2) = true ->
  IsolationFacts.owned u (Store.tables db1) = IsolationFacts.owned u (Store.tables db2) ->
  let resumed := SessionManager.resumeSession JSON_parse summaries_query resume (Some u) db1 in
  let listed := SessionManager.listSessions listing (Some u) db1 in
  SessionManager.resumeSession JSON_parse summaries_query resume (Some u) db2 = resumed
  /\ SessionManager.listSessions listing (Some u) db2 = listed
  /\ (forall r, resumed = Store.Ok (Full r) ->
        exists s, In s (Store.sessions (Store.tables db1))
                  /\ Store.s_id s = ResumeContextOutput.session_id r
                  /\ Store.s_user_id s = u)
  /\ (forall ms m, resumed = Store.Ok (Matches ms) -> In m ms ->
        exists s, In s (Store.sessions (Store.tables db1))
                  /\ Store.s_id s = AmbiguousMatch.session_id m
                  /\ Store.s_user_id s = u)
  /\ (forall o x, listed = Store.Ok o -> In x (ListContextsOutput.sessions o) ->
        exists s, In s (Store.sessions (Store.tables db1))
                  /\ Store.s_id s = ListedSession.session_id x
                  /\ Store.s_user_id s = u).
Proof.
  intros K1 J1 K2 J2 E resumed listed. subst resumed listed.
  split.
  { rewrite <- (IsolationFacts.resumeSession_owned _ _ resume u db1 K1 J1).
    rewrite <- (IsolationFacts.resumeSession_owned _ _ resume u db2 K2 J2).
    unfold IsolationFacts.owned_db. rewrite E. reflexivity. }
  split.
  { rewrite <- (IsolationFacts.listSessions_owned listing u db1).
    rewrite <- (IsolationFacts.listSessions_owned listing u db2).
    unfold IsolationFacts.owned_db. rewrite E. reflexivity. }
  destruct (IsolationFacts.resumeSession_rows JSON_parse summaries_query resume u db1 K1)
    as [F M].
  split; [exact F|]. split; [exact M|].
  intros o x. apply IsolationFacts.listSessions_rows.
Qed.

Lemma C5_user_isolation_witness :
  SessionManager.resumeSession JsonReader.parse no_summaries resume_in_project
                               (Some "alice") alice_db
  = SessionManager.resumeSession JsonReader.parse no_summaries resume_in_project
                                 (Some "alice") shared_db
  /\ SessionManager.listSessions list_all (Some "alice") alice_db
     = SessionManager.listSessions list_all (Some "alice") shared_db
  /\ existsb (fun s => String.eqb (Store.s_user_id s) "bob"
                       && String.eqb (Store.s_name s) "bug-fix"
                       && String.eqb (Store.s_project_name s) "proj-a")
             (Store.sessions (Store.tables shared_db)) = true.
Proof.
  assert (K1 : ResumeFacts.session_ids_unique (Store.tables shared_db) = true)
    by (vm_compute; reflexivity).
  assert (J1 : ResumeFacts.no_context_join (Store.tables shared_db) = true)
    by (vm_compute; reflexivity).
  assert (K2 : ResumeFacts.session_ids_unique (Store.tables alice_db) = true)
    by (vm_compute; reflexivity).
  assert (J2 : ResumeFacts.no_context_join (Store.tables alice_db) = true)
    by (vm_compute; reflexivity).
  assert (E : IsolationFacts.owned "alice" (Store.tables shared_db)
              = IsolationFacts.owned "alice" (Store.tables alice_db))
    by (vm_compute; reflexivity).
  destruct (C5_user_isolation JsonReader.parse no_summaries resume_in_project list_all
              "alice" shared_db alice_db K1 J1 K2 J2 E) as (R & L & _).
  split; [exact R|]. split; [exact L|]. vm_compute. reflexivity.
Defined.

(** ** Stored and returned metadata *)

Module MetadataFacts.
Import JsString Json Store Connection SessionManager.
Import ObjectFacts QueryFacts ResumeFacts SaveFacts SaveSessionFacts.




Section WithRuntime.

Variable JSON_parse : string -> option json.
Variable summaries_query : Id -> Result (list (option Id * string)).


End WithRuntime.

End MetadataFacts.



